(** * cameraServer.py: supervisor of the libcamera | ffmpeg streaming pipeline

    A shallow embedding of [src/cameraServer.py] and the properties of its
    supervision logic.

    Modelling conventions.
    - Python [str] values are [string]s whose characters are read as the code
      points U+0000..U+00FF.
    - Everything the program obtains from outside (socket connections, the HTTP
      endpoint, [pkill], the two child processes, the wall clock) is answered
      by a [World]: one stream of answers per kind of call, consumed in order.
    - Every call that leaves the program is recorded as an [Event].
    - Exceptions are the subclasses of Python's [Exception] that those calls
      raise.  Asynchronous signals ([KeyboardInterrupt]) are outside the
      model. *)

From Stdlib Require Import ZArith NArith List Bool Lia.
From Stdlib Require Import Strings.String Strings.Ascii Numbers.DecimalString.
Import ListNotations.
Open Scope list_scope.
Open Scope string_scope.
Open Scope Z_scope.

Set Implicit Arguments.

(* ================================================================== *)
(** ** Python strings *)

Module PyStr.

Definition code (c : ascii) : N := N_of_ascii c.

(** [str.isspace] on one character (code points below 256). *)
Definition isspace (c : ascii) : bool :=
  let n := code c in
  (((9 <=? n) && (n <=? 13)) || ((28 <=? n) && (n <=? 32))
   || (n =? 133) || (n =? 160))%N.

(** [str.lower] on one character (code points below 256). *)
Definition lower_char (c : ascii) : ascii :=
  let n := code c in
  if (((65 <=? n) && (n <=? 90))
      || ((192 <=? n) && (n <=? 222) && negb (n =? 215)))%N
  then ascii_of_N (n + 32) else c.

Fixpoint lower (s : string) : string :=
  match s with
  | EmptyString => EmptyString
  | String c s' => String (lower_char c) (lower s')
  end.

Fixpoint lstrip (s : string) : string :=
  match s with
  | EmptyString => EmptyString
  | String c s' => if isspace c then lstrip s' else s
  end.

Fixpoint rstrip (s : string) : string :=
  match s with
  | EmptyString => EmptyString
  | String c s' =>
      match rstrip s' with
      | EmptyString => if isspace c then EmptyString else String c EmptyString
      | r => String c r
      end
  end.

(** [s.strip()] *)
Definition strip (s : string) : string := rstrip (lstrip s).

(** [needle in hay] *)
Fixpoint is_in (needle hay : string) : bool :=
  prefix needle hay
  || match hay with
     | EmptyString => false
     | String _ hay' => is_in needle hay'
     end.

(** Truth value of a string: non-empty. *)
Definition truthy (s : string) : bool :=
  match s with EmptyString => false | _ => true end.

(** [any(term in s for term in terms)] *)
Definition any_in (terms : list string) (s : string) : bool :=
  existsb (fun term => is_in term s) terms.

(** [s.split(sep)] for a one-character separator. *)
Fixpoint split_aux (sep : ascii) (cur : string) (s : string) : list string :=
  match s with
  | EmptyString => [cur]
  | String c s' =>
      if Ascii.eqb c sep then cur :: split_aux sep EmptyString s'
      else split_aux sep (cur ++ String c EmptyString) s'
  end.

Definition split (sep : ascii) (s : string) : list string :=
  split_aux sep EmptyString s.

(** [str(n)] for an integer. *)
Definition of_Z (n : Z) : string := NilZero.string_of_int (Z.to_int n).

End PyStr.

(* ================================================================== *)
(** ** The outside world *)

(** An unbounded sequence of answers, consumed from the front. *)
Definition Stream (A : Type) : Type := nat -> A.
Definition shd {A} (s : Stream A) : A := s O.
Definition stl {A} (s : Stream A) : Stream A := fun n => s (S n).
Arguments shd : simpl never.
Arguments stl : simpl never.

(** The two child programs. *)
Inductive Proc : Type := Libcamera | Ffmpeg.

Definition Proc_eqb (p q : Proc) : bool :=
  match p, q with
  | Libcamera, Libcamera | Ffmpeg, Ffmpeg => true
  | _, _ => false
  end.

(** Exceptions: all are instances of Python's [Exception]. *)
Inductive ExnClass : Type :=
  OSError | RequestException | TimeoutExpired | UnicodeDecodeError | OtherException.

Record Exn : Type := mkExn { exn_class : ExnClass; exn_str : string }.

Definition is_class (c : ExnClass) (e : Exn) : bool :=
  match c, exn_class e with
  | OSError, OSError | RequestException, RequestException
  | TimeoutExpired, TimeoutExpired | UnicodeDecodeError, UnicodeDecodeError
  | OtherException, OtherException => true
  | _, _ => false
  end.

Arguments is_class : simpl never.

Record World : Type := mkWorld {
  hostname  : string;
    (* contents of /etc/hostname, stripped *)
  net       : Stream bool;
    (* socket.create_connection(("8.8.8.8", 53), timeout=3): connected, or OSError *)
  http      : Stream (string + Exn);
    (* requests.post(...) and raise_for_status(): response text, or the exception *)
  pkill     : Stream (Z + Exn);
    (* subprocess.run(['pkill', ...], timeout=5): return code, or the exception *)
  spawn     : Stream (Z + Exn);
    (* subprocess.Popen(...): pid, or the exception *)
  exited    : Proc -> Stream (option Z);
    (* Popen.poll() *)
  pending   : Proc -> Stream (option (string + Exn));
    (* select on stderr with timeout 0: nothing to read, or what
       readline().decode() then gives *)
  remaining : Proc -> Stream (string + Exn);
    (* stderr.read().decode() *)
  clock     : Stream Z
    (* time.time(), in whole seconds *)
}.

(** Every call that leaves the program. *)
Inductive Event : Type :=
| Print (text : string)
| Log (message : string)              (* log_message, without its timestamp *)
| Connect (ok : bool)
| Post (url cameraName : string)
| Run (argv : list string)
| Spawn (argv : list string)
| Poll (p : Proc) (returncode : option Z)
| Select (p : Proc) (readable : bool)
| Readline (p : Proc)
| ReadAll (p : Proc)
| CloseStdout (p : Proc)
| GpioSetup (pin : Z)
| GpioOutput (pin : Z) (high : bool)
| GpioCleanup
| Sleep (seconds : Z)
| Time.

(** Program state: the world still to come, the module-level global
    [status], and the levels of the GPIO outputs. *)
Record State : Type := mkState {
  env    : World;
  status : Z;
  gpio   : Z -> bool
}.

Definition with_env (w : World) (s : State) : State :=
  mkState w (status s) (gpio s).
Definition with_status (v : Z) (s : State) : State :=
  mkState (env s) v (gpio s).
Definition with_gpio (g : Z -> bool) (s : State) : State :=
  mkState (env s) (status s) g.

Definition next_net (w : World) : World :=
  mkWorld (hostname w) (stl (net w)) (http w) (pkill w) (spawn w)
          (exited w) (pending w) (remaining w) (clock w).
Definition next_http (w : World) : World :=
  mkWorld (hostname w) (net w) (stl (http w)) (pkill w) (spawn w)
          (exited w) (pending w) (remaining w) (clock w).
Definition next_pkill (w : World) : World :=
  mkWorld (hostname w) (net w) (http w) (stl (pkill w)) (spawn w)
          (exited w) (pending w) (remaining w) (clock w).
Definition next_spawn (w : World) : World :=
  mkWorld (hostname w) (net w) (http w) (pkill w) (stl (spawn w))
          (exited w) (pending w) (remaining w) (clock w).
Definition advance {A} (p : Proc) (f : Proc -> Stream A) : Proc -> Stream A :=
  fun q => if Proc_eqb q p then stl (f q) else f q.
Definition next_exited (p : Proc) (w : World) : World :=
  mkWorld (hostname w) (net w) (http w) (pkill w) (spawn w)
          (advance p (exited w)) (pending w) (remaining w) (clock w).
Definition next_pending (p : Proc) (w : World) : World :=
  mkWorld (hostname w) (net w) (http w) (pkill w) (spawn w)
          (exited w) (advance p (pending w)) (remaining w) (clock w).
Definition next_remaining (p : Proc) (w : World) : World :=
  mkWorld (hostname w) (net w) (http w) (pkill w) (spawn w)
          (exited w) (pending w) (advance p (remaining w)) (clock w).
Definition next_clock (w : World) : World :=
  mkWorld (hostname w) (net w) (http w) (pkill w) (spawn w)
          (exited w) (pending w) (remaining w) (stl (clock w)).

(* ================================================================== *)
(** ** The monad of the program: state, exceptions, emitted events *)

Inductive result (A : Type) : Type :=
| Ret (a : A)
| Raise (e : Exn).
Arguments Raise {A} e.

Definition M (A : Type) : Type := State -> result A * State * list Event.

Definition ret {A} (a : A) : M A := fun s => (Ret a, s, []).
Definition raise {A} (e : Exn) : M A := fun s => (Raise e, s, []).

Definition bind {A B} (m : M A) (k : A -> M B) : M B := fun s =>
  match m s with
  | (Ret a, s1, ev1) =>
      match k a s1 with (r, s2, ev2) => (r, s2, (ev1 ++ ev2)%list) end
  | (Raise e, s1, ev1) => (Raise e, s1, ev1)
  end.

Notation "x <- m ;; k" := (bind m (fun x => k))
  (at level 61, m at next level, right associativity).
Notation "m ;; k" := (bind m (fun _ => k))
  (at level 61, right associativity).

Definition emit (e : Event) : M unit := fun s => (Ret tt, s, [e]).
Definition get {A} (f : State -> A) : M A := fun s => (Ret (f s), s, []).
Definition modify (f : State -> State) : M unit := fun s => (Ret tt, f s, []).

Definition result_of {A} (o : result A * State * list Event) : result A :=
  fst (fst o).
Definition state_of {A} (o : result A * State * list Event) : State :=
  snd (fst o).
Definition events_of {A} (o : result A * State * list Event) : list Event :=
  snd o.

(* ================================================================== *)
(** ** Library calls *)

Definition print (text : string) : M unit := emit (Print text).

Definition time_sleep (seconds : Z) : M unit := emit (Sleep seconds).

Definition time_time : M Z :=
  t <- get (fun s => shd (clock (env s))) ;;
  modify (fun s => with_env (next_clock (env s)) s) ;;
  emit Time ;;
  ret t.

(** [socket.create_connection(("8.8.8.8", 53), timeout=3)] *)
Definition socket_create_connection : M unit :=
  ok <- get (fun s => shd (net (env s))) ;;
  modify (fun s => with_env (next_net (env s)) s) ;;
  emit (Connect ok) ;;
  if ok then ret tt else raise (mkExn OSError "connection failed").

(** [requests.post(url, files=...)] followed by [raise_for_status()];
    gives [response.text]. *)
Definition requests_post (url cameraName : string) : M string :=
  r <- get (fun s => shd (http (env s))) ;;
  modify (fun s => with_env (next_http (env s)) s) ;;
  emit (Post url cameraName) ;;
  match r with
  | inl text => ret text
  | inr e => raise e
  end.

(** [subprocess.run(argv, timeout=5)]; the return code is not checked. *)
Definition subprocess_run (argv : list string) : M Z :=
  r <- get (fun s => shd (pkill (env s))) ;;
  modify (fun s => with_env (next_pkill (env s)) s) ;;
  emit (Run argv) ;;
  match r with
  | inl returncode => ret returncode
  | inr e => raise e
  end.

(** A [subprocess.Popen] object.  [stderr] tells whether the object has a
    stderr pipe (it has when created with [stderr=subprocess.PIPE]). *)
Record Popen : Type := mkPopen { prog : Proc; pid : Z; stderr : bool }.

(** [subprocess.Popen(argv, ..., stderr=subprocess.PIPE)] *)
Definition subprocess_Popen (p : Proc) (argv : list string) : M Popen :=
  r <- get (fun s => shd (spawn (env s))) ;;
  modify (fun s => with_env (next_spawn (env s)) s) ;;
  emit (Spawn argv) ;;
  match r with
  | inl n => ret (mkPopen p n true)
  | inr e => raise e
  end.

(** [process.poll()] *)
Definition poll (process : Popen) : M (option Z) :=
  r <- get (fun s => shd (exited (env s) (prog process))) ;;
  modify (fun s => with_env (next_exited (prog process) (env s)) s) ;;
  emit (Poll (prog process) r) ;;
  ret r.

(** [select.select([process.stderr], [], [], 0)] and, when the pipe is
    readable, [process.stderr.readline().decode()]. *)
Definition select_stderr (process : Popen) : M (option (string + Exn)) :=
  r <- get (fun s => shd (pending (env s) (prog process))) ;;
  modify (fun s => with_env (next_pending (prog process) (env s)) s) ;;
  emit (Select (prog process) (match r with Some _ => true | None => false end)) ;;
  ret r.

Definition readline_decode (process : Popen) (line : string + Exn) : M string :=
  emit (Readline (prog process)) ;;
  match line with
  | inl text => ret text
  | inr e => raise e
  end.

(** [process.stderr.read().decode()] *)
Definition read_decode (process : Popen) : M string :=
  r <- get (fun s => shd (remaining (env s) (prog process))) ;;
  modify (fun s => with_env (next_remaining (prog process) (env s)) s) ;;
  emit (ReadAll (prog process)) ;;
  match r with
  | inl text => ret text
  | inr e => raise e
  end.

(** [process.stdout.close()] *)
Definition stdout_close (process : Popen) : M unit :=
  emit (CloseStdout (prog process)).

Definition HIGH : bool := true.
Definition LOW : bool := false.

(** [GPIO.output(pin, level)] *)
Definition GPIO_output (pin : Z) (level : bool) : M unit :=
  modify (fun s => with_gpio (fun q => if q =? pin then level else gpio s q) s) ;;
  emit (GpioOutput pin level).

(** [GPIO.setup(pin, GPIO.OUT)]: the level is left as it is. *)
Definition GPIO_setup (pin : Z) : M unit := emit (GpioSetup pin).

(** [GPIO.cleanup()]: every channel goes back to being an input, so no
    output is driven high any more. *)
Definition GPIO_cleanup : M unit :=
  modify (fun s => with_gpio (fun _ => LOW) s) ;;
  emit GpioCleanup.

(** Clauses of a [try] statement: the handler of the first clause that
    matches, if any. *)
Definition Handler (A : Type) : Type := Exn -> option (M A).

Definition except {A} (c : ExnClass) (h : Exn -> M A) : Handler A :=
  fun e => if is_class c e then Some (h e) else None.

Definition except_Exception {A} (h : Exn -> M A) : Handler A :=
  fun e => Some (h e).

Definition or_except {A} (h1 h2 : Handler A) : Handler A :=
  fun e => match h1 e with Some k => Some k | None => h2 e end.

Definition try_except {A} (m : M A) (h : Handler A) : M A := fun s =>
  match m s with
  | (Ret a, s1, ev1) => (Ret a, s1, ev1)
  | (Raise e, s1, ev1) =>
      match h e with
      | Some k => match k s1 with (r, s2, ev2) => (r, s2, (ev1 ++ ev2)%list) end
      | None => (Raise e, s1, ev1)
      end
  end.

(* ================================================================== *)
(** ** cameraServer.py *)

Import PyStr.

Definition RTMP_URL (hostname : string) : string :=
  "rtmp://rtmp.aionasset.in/live/test" ++ hostname.
Definition FRAMERATE : string := "20".
Definition RESOLUTION : string := "640x480".
Definition VIDEO_BITRATE : string := "600k".

(** [log_message]: the message goes to standard output behind a timestamp. *)
Definition log_message (message : string) : M unit := emit (Log message).

Definition start_camera_feed : M string :=
  let url := "https://www.arcturusbusiness.com/helmetFeed/login/camStart.php" in
  cameraName <- get (fun s => hostname (env s)) ;;
  try_except (text <- requests_post url cameraName ;;
       modify (with_status 1) ;;
       print ("on camera api: " ++ text) ;;
       ret text)
      (except RequestException (fun e => ret ("Error: " ++ exn_str e))).

Definition check_internet : M bool :=
  try_except (socket_create_connection ;; ret true)
      (except OSError (fun _ => ret false)).

(** [wait_for_internet], lines 58-61: the loop test and, when it holds, the
    loop body.  The answer tells whether the loop goes round again. *)
Definition wait_for_internet_loop : M bool :=
  up <- check_internet ;;
  if negb up then
    log_message "Waiting for internet connection..." ;;
    modify (with_status 0) ;;
    time_sleep 1 ;;
    ret true
  else ret false.

(** [wait_for_internet], lines 62-64: what follows the loop. *)
Definition wait_for_internet_exit : M unit :=
  log_message "Internet connection established!" ;;
  st <- get status ;;
  if st =? 0 then _ <- start_camera_feed ;; ret tt else ret tt.

(** The whole of [wait_for_internet]; [None] when [fuel] iterations of the
    loop did not see a connection. *)
Fixpoint wait_for_internet (fuel : nat) : M (option unit) :=
  match fuel with
  | O => ret None
  | S fuel' =>
      again <- wait_for_internet_loop ;;
      if again then wait_for_internet fuel'
      else wait_for_internet_exit ;; ret (Some tt)
  end.

Definition kill_camera_processes : M unit :=
  try_except (_ <- subprocess_run ["pkill"; "-f"; "libcamera"] ;;
       _ <- subprocess_run ["pkill"; "-f"; "ffmpeg"] ;;
       time_sleep 2)
      (or_except
         (except TimeoutExpired
            (fun _ => log_message "Warning: Timeout while killing processes"))
         (except_Exception
            (fun e => log_message ("Error killing processes: " ++ exn_str e)))).

Definition error_terms : list string :=
  ["error"; "failed"; "cannot"; "unable"; "timeout"; "terminated"].

Definition monitor_process_output (process : Popen) (process_name : string)
  : M bool :=
  if stderr process then
    readable <- select_stderr process ;;
    match readable with
    | Some line =>
        raw <- readline_decode process line ;;
        let error_output := strip raw in
        if truthy error_output then
          if (process_name =? "libcamera")%string && is_in "INFO" error_output
          then
            log_message ("libcamera info: " ++ error_output) ;;
            ret false
          else if any_in error_terms (lower error_output)
          then
            log_message (process_name ++ " error: " ++ error_output) ;;
            ret true
          else
            log_message (process_name ++ " output: " ++ error_output) ;;
            ret false
        else ret false
    | None => ret false
    end
  else ret false.

Definition libcamera_command : list string :=
  ["libcamera-vid"; "-t"; "0"; "--inline"; "--nopreview";
   "--rotation"; "180";
   "--width"; nth 0 (split "x" RESOLUTION) "";
   "--height"; nth 1 (split "x" RESOLUTION) "";
   "--framerate"; FRAMERATE;
   "--codec"; "h264";
   "--bitrate"; VIDEO_BITRATE;
   "-o"; "-"].

Definition ffmpeg_command (rtmp_url : string) : list string :=
  ["ffmpeg"; "-i"; "-"; "-c:v"; "copy"; "-f"; "flv";
   "-loglevel"; "warning"; rtmp_url].

Definition start_streaming : M (option (Popen * Popen)) :=
  try_except (kill_camera_processes ;;
       rtmp_url <- get (fun s => RTMP_URL (hostname (env s))) ;;
       log_message "Starting libcamera process..." ;;
       libcamera_process <- subprocess_Popen Libcamera libcamera_command ;;
       time_sleep 1 ;;
       returncode <- poll libcamera_process ;;
       match returncode with
       | Some _ =>
           error_output <- read_decode libcamera_process ;;
           log_message ("libcamera failed to start: " ++ error_output) ;;
           ret None
       | None =>
           log_message "Starting ffmpeg process..." ;;
           ffmpeg_process <- subprocess_Popen Ffmpeg (ffmpeg_command rtmp_url) ;;
           stdout_close libcamera_process ;;
           log_message "Streaming started successfully" ;;
           ret (Some (libcamera_process, ffmpeg_process))
       end)
      (except_Exception
         (fun e => log_message ("Error starting stream: " ++ exn_str e) ;;
                   ret None)).

(** *** [main] *)

Definition max_retries : Z := 3.

(** [range(n)] *)
Definition range (n : Z) : list Z := map Z.of_nat (seq 0 (Z.to_nat n)).

(** Lines 166-171: [for retry in range(max_retries)], given the values the
    loop variable still has to take and the current value of [processes];
    the answer is [processes] when the loop is left. *)
Fixpoint retry_loop (retries : list Z) (processes : option (Popen * Popen))
  : M (option (Popen * Popen)) :=
  match retries with
  | [] => ret processes
  | retry :: retries' =>
      processes <- start_streaming ;;
      match processes with
      | Some _ => ret processes
      | None =>
          log_message ("Retry " ++ of_Z (retry + 1) ++ "/" ++ of_Z max_retries) ;;
          time_sleep 3 ;;
          retry_loop retries' processes
      end
  end.

Inductive Flow : Type := Continue | Break.

(** Lines 180-218: one round of the streaming loop. *)
Definition poll_iteration
    (libcamera_process ffmpeg_process : Popen) (stream_start_time count : Z)
  : M Flow :=
  now <- time_time ;;
  let uptime := now - stream_start_time in
  log_message ("Stream uptime: " ++ of_Z uptime
               ++ " seconds (loop count: " ++ of_Z count ++ ")") ;;
  libcamera_status <- poll libcamera_process ;;
  ffmpeg_status <- poll ffmpeg_process ;;
  match libcamera_status with
  | Some code =>
      log_message ("libcamera process exited with status: " ++ of_Z code) ;;
      error_output <- read_decode libcamera_process ;;
      log_message ("libcamera final output: " ++ error_output) ;;
      GPIO_output 18 LOW ;;
      kill_camera_processes ;;
      ret Break
  | None =>
  match ffmpeg_status with
  | Some code =>
      log_message ("ffmpeg process exited with status: " ++ of_Z code) ;;
      error_output <- read_decode ffmpeg_process ;;
      log_message ("ffmpeg final output: " ++ error_output) ;;
      GPIO_output 18 LOW ;;
      kill_camera_processes ;;
      ret Break
  | None =>
      libcamera_error <- monitor_process_output libcamera_process "libcamera" ;;
      any_error <- (if libcamera_error then ret true
                    else monitor_process_output ffmpeg_process "ffmpeg") ;;
      if any_error then
        log_message "Error detected in process output" ;;
        GPIO_output 18 LOW ;;
        kill_camera_processes ;;
        ret Break
      else
        up <- check_internet ;;
        if negb up then
          log_message "Internet connection lost" ;;
          GPIO_output 18 LOW ;;
          kill_camera_processes ;;
          ret Break
        else
          time_sleep 3 ;;
          ret Continue
  end
  end.

(** Where the supervisor stands between two steps: at the head of one of
    its two unbounded loops, before its first statement, or gone. *)
Inductive Loc : Type :=
| Boot
| Waiting
    (* at the loop test of [wait_for_internet], called from line 163 *)
| Streaming (libcamera_process ffmpeg_process : Popen) (stream_start_time : Z)
    (* at line 179, holding the pair [start_streaming] returned *)
| Exited.

(** Lines 220-221, then round the outer loop to line 163. *)
Definition restart : M Loc :=
  log_message "Restarting streaming service in 3 seconds..." ;;
  time_sleep 3 ;;
  ret Waiting.

(** Lines 13-20 (module level), then lines 155-160 of [main]. *)
Definition module_level : M unit :=
  GPIO_cleanup ;;
  GPIO_setup 18 ;;
  GPIO_setup 23 ;;
  name <- get (fun s => hostname (env s)) ;;
  print ("Hostname: " ++ name).

Definition boot : M Loc :=
  log_message "Starting RTMP streaming service" ;;
  kill_camera_processes ;;
  ret Waiting.

(** Lines 163-177 and 220-221, from the loop test of [wait_for_internet]. *)
Definition connect_and_launch : M Loc :=
  again <- wait_for_internet_loop ;;
  if again then ret Waiting
  else
    wait_for_internet_exit ;;
    processes <- retry_loop (range max_retries) None ;;
    match processes with
    | Some (libcamera_process, ffmpeg_process) =>
        GPIO_output 18 HIGH ;;
        stream_start_time <- time_time ;;
        log_message "Stream started" ;;
        ret (Streaming libcamera_process ffmpeg_process stream_start_time)
    | None => restart
    end.

(** Lines 179-221, from the head of the streaming loop. *)
Definition stream
    (libcamera_process ffmpeg_process : Popen) (stream_start_time count : Z)
  : M Loc :=
  flow <- poll_iteration libcamera_process ffmpeg_process stream_start_time count ;;
  match flow with
  | Continue => ret (Streaming libcamera_process ffmpeg_process stream_start_time)
  | Break => restart
  end.

(** Lines 222-226 and 233-235: an exception leaving the body of [main]'s
    [try] is logged, then the [finally] clauses of [main] and of the
    module run, and the process is over. *)
Definition shutdown (e : Exn) : M Loc :=
  log_message ("Exited with: " ++ exn_str e) ;;
  kill_camera_processes ;;
  GPIO_cleanup ;;
  GPIO_cleanup ;;
  log_message "Process exited" ;;
  ret Exited.

Definition main_try (body : M Loc) : M Loc :=
  try_except body (except_Exception shutdown).

(** A configuration of the supervisor: where it stands, [main]'s counter,
    the program state, and everything done so far. *)
Record Config : Type := mkConfig {
  loc   : Loc;
  count : Z;
  st    : State;
  trace : list Event
}.

Definition body_at (c : Config) : M Loc :=
  match loc c with
  | Boot => module_level ;; main_try boot
  | Waiting => main_try connect_and_launch
  | Streaming libcamera_process ffmpeg_process stream_start_time =>
      main_try (stream libcamera_process ffmpeg_process stream_start_time (count c))
  | Exited => ret Exited
  end.

Definition next_count (c : Config) : Z :=
  match loc c with
  | Streaming _ _ _ => count c + 1
  | _ => count c
  end.

(** One step takes the supervisor from one loop head to the next. *)
Definition step (c : Config) : Config :=
  match body_at c (st c) with
  | (Ret l, s, ev) => mkConfig l (next_count c) s (trace c ++ ev)
  | (Raise _, s, ev) => mkConfig Exited (next_count c) s (trace c ++ ev)
  end.

Fixpoint run (n : nat) (c : Config) : Config :=
  match n with
  | O => c
  | S n' => run n' (step c)
  end.

(** The program as started: [status = 0] (line 27), nothing driven high. *)
Definition init (w : World) : Config :=
  mkConfig Boot 0 (mkState w 0 (fun _ => LOW)) [].

(** The status indicator: output pin 18. *)
Definition indicator (c : Config) : bool := gpio (st c) 18.

Definition streaming (c : Config) : bool :=
  match loc c with
  | Streaming _ _ _ => true
  | _ => false
  end.

(* ================================================================== *)
(** * Facts about the string operations *)

Module PyStrFacts.

(** [needle] occurs in [hay]. *)
Definition Contains (needle hay : string) : Prop :=
  exists pre post, hay = pre ++ needle ++ post.

(** [token] occurs in [hay] up to letter case. *)
Definition ContainsCI (token hay : string) : Prop :=
  exists pre mid post, hay = pre ++ mid ++ post /\ lower mid = lower token.

Fixpoint no_space (s : string) : bool :=
  match s with
  | EmptyString => true
  | String c s' => negb (isspace c) && no_space s'
  end.

Lemma app_assoc (a b c : string) : (a ++ b) ++ c = a ++ b ++ c.
Proof. induction a as [|x a IH]; simpl; [reflexivity | now rewrite IH]. Qed.

Lemma prefix_app (n post : string) : prefix n (n ++ post) = true.
Proof.
  induction n as [|c n IH]; simpl.
  - now destruct post.
  - destruct (ascii_dec c c) as [_|ne]; [exact IH | now elim ne].
Qed.

Lemma prefix_inv (n : string) :
  forall h, prefix n h = true -> exists post, h = n ++ post.
Proof.
  induction n as [|c n IH]; intros h H.
  - now exists h.
  - destruct h as [|d h]; simpl in H; [discriminate|].
    destruct (ascii_dec c d) as [->|]; [|discriminate].
    destruct (IH h H) as [post ->]. now exists post.
Qed.

Lemma is_in_eq (n h : string) :
  is_in n h = prefix n h
              || match h with EmptyString => false | String _ h' => is_in n h' end.
Proof. destruct h; reflexivity. Qed.

Lemma is_in_intro (n pre post : string) : is_in n (pre ++ n ++ post) = true.
Proof.
  induction pre as [|c pre IH].
  - simpl. rewrite is_in_eq, prefix_app. reflexivity.
  - rewrite is_in_eq. simpl. rewrite IH. apply orb_true_r.
Qed.

Lemma is_in_inv (n : string) : forall h, is_in n h = true -> Contains n h.
Proof.
  induction h as [|c h IH]; intros H; rewrite is_in_eq in H;
    apply orb_true_iff in H; destruct H as [H|H].
  - destruct (prefix_inv _ _ H) as [post E]. now exists "", post.
  - discriminate.
  - destruct (prefix_inv _ _ H) as [post E]. now exists "", post.
  - destruct (IH H) as (pre & post & ->). now exists (String c pre), post.
Qed.

(** [in] decides occurrence. *)
Lemma is_in_spec (n h : string) : is_in n h = true <-> Contains n h.
Proof.
  split; [apply is_in_inv|]. intros (pre & post & ->). apply is_in_intro.
Qed.

Lemma Contains_trans (n m h : string) :
  Contains n m -> Contains m h -> Contains n h.
Proof.
  intros (a & b & ->) (c & d & ->).
  exists (c ++ a), (b ++ d). now rewrite !app_assoc.
Qed.

Lemma lower_app (a b : string) : lower (a ++ b) = lower a ++ lower b.
Proof. induction a as [|c a IH]; simpl; [reflexivity | now rewrite IH]. Qed.

Lemma isspace_lower_char (c : ascii) : isspace (lower_char c) = isspace c.
Proof. destruct c as [[] [] [] [] [] [] [] []]; reflexivity. Qed.

Lemma no_space_lower (s : string) : no_space (lower s) = no_space s.
Proof.
  induction s as [|c s IH]; simpl; [reflexivity|].
  now rewrite isspace_lower_char, IH.
Qed.

(** Stripping only removes characters at the two ends ... *)
Lemma lstrip_suffix (s : string) : exists a, s = a ++ lstrip s.
Proof.
  induction s as [|c s [a IH]]; simpl.
  - now exists "".
  - destruct (isspace c).
    + exists (String c a). simpl. now rewrite <- IH.
    + now exists "".
Qed.

Lemma rstrip_prefix (s : string) : exists b, s = rstrip s ++ b.
Proof.
  induction s as [|c s [b IH]]; simpl.
  - now exists "".
  - destruct (rstrip s) as [|d r] eqn:E.
    + destruct (isspace c).
      * now exists (String c s).
      * exists b. simpl in *. now rewrite <- IH.
    + exists b. simpl in *. now rewrite <- IH.
Qed.

Lemma strip_Contains (s : string) : Contains (strip s) s.
Proof.
  unfold strip. destruct (lstrip_suffix s) as [a Ea].
  destruct (rstrip_prefix (lstrip s)) as [b Eb].
  exists a, b. now rewrite <- Eb.
Qed.

(** ... and stops at the first character that is not white space. *)
Lemma lstrip_keeps (mid post : string) :
  mid <> "" -> no_space mid = true ->
  forall pre, exists pre', lstrip (pre ++ mid ++ post) = pre' ++ mid ++ post.
Proof.
  intros Hne Hns. induction pre as [|c pre [pre' IH]].
  - exists "". destruct mid as [|c mid]; [now elim Hne|].
    simpl in *. apply andb_true_iff in Hns. destruct Hns as [Hc _].
    now destruct (isspace c).
  - simpl. destruct (isspace c).
    + now exists pre'.
    + now exists (String c pre).
Qed.

Lemma rstrip_keeps_here (post : string) :
  forall mid, mid <> "" -> no_space mid = true ->
  exists post', rstrip (mid ++ post) = mid ++ post'.
Proof.
  induction mid as [|c mid IH]; intros Hne Hns; [now elim Hne|].
  simpl in Hns. apply andb_true_iff in Hns. destruct Hns as [Hc Hns].
  apply negb_true_iff in Hc. destruct mid as [|d mid].
  - simpl. destruct (rstrip post) as [|e r].
    + rewrite Hc. now exists "".
    + now exists (String e r).
  - remember (String d mid) as m eqn:Em.
    destruct (IH ltac:(subst m; discriminate) Hns) as [post' E].
    exists post'. simpl. rewrite E. now subst m.
Qed.

Lemma rstrip_keeps (mid post : string) :
  mid <> "" -> no_space mid = true ->
  forall pre, exists post', rstrip (pre ++ mid ++ post) = pre ++ mid ++ post'.
Proof.
  intros Hne Hns. induction pre as [|c pre [post' IH]].
  - simpl. now apply rstrip_keeps_here.
  - exists post'. simpl. rewrite IH.
    destruct (pre ++ mid ++ post') eqn:E; [|reflexivity].
    destruct pre; [destruct mid; [now elim Hne | discriminate] | discriminate].
Qed.

Lemma strip_keeps (pre mid post : string) :
  mid <> "" -> no_space mid = true ->
  exists pre' post', strip (pre ++ mid ++ post) = pre' ++ mid ++ post'.
Proof.
  intros Hne Hns. unfold strip.
  destruct (lstrip_keeps post Hne Hns pre) as [pre' ->].
  destruct (rstrip_keeps post Hne Hns pre') as [post' ->].
  now exists pre', post'.
Qed.

Lemma strip_truthy (pre mid post : string) :
  mid <> "" -> no_space mid = true ->
  truthy (strip (pre ++ mid ++ post)) = true.
Proof.
  intros Hne Hns. destruct (strip_keeps pre post Hne Hns) as (a & b & ->).
  destruct a; [destruct mid; [now elim Hne | reflexivity] | reflexivity].
Qed.

(** A word without white space survives [strip]. *)
Lemma Contains_strip (needle raw : string) :
  needle <> "" -> no_space needle = true ->
  Contains needle raw ->
  Contains needle (strip raw) /\ truthy (strip raw) = true.
Proof.
  intros Hne Hns (pre & post & ->). split.
  - destruct (strip_keeps pre post Hne Hns) as (a & b & ->). now exists a, b.
  - now apply strip_truthy.
Qed.

(** An error term in any letter case is found in the lowered, stripped
    line. *)
Lemma ContainsCI_strip_lower (token raw : string) :
  lower token <> "" -> no_space (lower token) = true ->
  ContainsCI token raw ->
  is_in (lower token) (lower (strip raw)) = true /\ truthy (strip raw) = true.
Proof.
  intros Hne Hns (pre & mid & post & -> & Hmid).
  assert (Hne' : mid <> "") by (intros ->; now apply Hne; rewrite <- Hmid).
  assert (Hns' : no_space mid = true)
    by now rewrite <- no_space_lower, Hmid.
  split; [|now apply strip_truthy].
  destruct (strip_keeps pre post Hne' Hns') as (a & b & ->).
  rewrite !lower_app, Hmid. apply is_in_intro.
Qed.

Lemma any_in_intro (terms : list string) (term s : string) :
  In term terms -> is_in term s = true -> any_in terms s = true.
Proof.
  intros Hin H. apply existsb_exists. now exists term.
Qed.

End PyStrFacts.

(* ================================================================== *)
(** * Reasoning about the monad *)

(** Properties that every statement of a block keeps are kept by the
    block. *)
Section Respects.

Variable R : State -> State -> list Event -> Prop.
Hypothesis R_refl : forall s, R s s [].
Hypothesis R_trans : forall s1 s2 s3 ev1 ev2,
    R s1 s2 ev1 -> R s2 s3 ev2 -> R s1 s3 (ev1 ++ ev2)%list.

Definition respects {A} (m : M A) : Prop :=
  forall s, R s (state_of (m s)) (events_of (m s)).

Definition respects_handler {A} (h : Handler A) : Prop :=
  forall e k, h e = Some k -> respects k.

Lemma respects_ret {A} (a : A) : respects (ret a).
Proof. intro s. apply R_refl. Qed.

Lemma respects_raise {A} (e : Exn) : respects (@raise A e).
Proof. intro s. apply R_refl. Qed.

Lemma respects_get {A} (f : State -> A) : respects (get f).
Proof. intro s. apply R_refl. Qed.

Lemma respects_bind {A B} (m : M A) (k : A -> M B) :
  respects m -> (forall a, respects (k a)) -> respects (bind m k).
Proof.
  intros Hm Hk s. specialize (Hm s). unfold bind.
  destruct (m s) as [[[a|e] s1] ev1]; cbn in *.
  - specialize (Hk a s1). destruct (k a s1) as [[r s2] ev2]; cbn in *.
    eapply R_trans; eassumption.
  - exact Hm.
Qed.

Lemma respects_try_except {A} (m : M A) (h : Handler A) :
  respects m -> respects_handler h -> respects (try_except m h).
Proof.
  intros Hm Hh s. specialize (Hm s). unfold try_except.
  destruct (m s) as [[[a|e] s1] ev1]; cbn in *; [exact Hm|].
  destruct (h e) as [k|] eqn:E; [|exact Hm].
  specialize (Hh e k E s1). destruct (k s1) as [[r s2] ev2]; cbn in *.
  eapply R_trans; eassumption.
Qed.

Lemma respects_except {A} (c : ExnClass) (h : Exn -> M A) :
  (forall e, respects (h e)) -> respects_handler (except c h).
Proof.
  intros H e k. unfold except. destruct (is_class c e); [|discriminate].
  intros [= <-]. apply H.
Qed.

Lemma respects_except_Exception {A} (h : Exn -> M A) :
  (forall e, respects (h e)) -> respects_handler (except_Exception h).
Proof. intros H e k [= <-]. apply H. Qed.

Lemma respects_or_except {A} (h1 h2 : Handler A) :
  respects_handler h1 -> respects_handler h2 ->
  respects_handler (or_except h1 h2).
Proof.
  intros H1 H2 e k. unfold or_except. destruct (h1 e) as [k1|] eqn:E.
  - intros [= <-]. now apply (H1 e).
  - apply H2.
Qed.

Lemma respects_emit (e : Event) :
  (forall s, R s s [e]) -> respects (emit e).
Proof. intros H s. apply H. Qed.

Lemma respects_modify (f : State -> State) :
  (forall s, R s (f s) []) -> respects (modify f).
Proof. intros H s. apply H. Qed.

End Respects.

(** The usual shape of such a property: a component of the state stays as
    it is, and only events of a given kind are emitted. *)
Definition keeps {X} (f : State -> X) (ok : Event -> bool)
  : State -> State -> list Event -> Prop :=
  fun s s' ev => f s' = f s /\ forallb ok ev = true.

Lemma keeps_refl {X} (f : State -> X) ok s : keeps f ok s s [].
Proof. now split. Qed.

Lemma keeps_trans {X} (f : State -> X) ok s1 s2 s3 ev1 ev2 :
  keeps f ok s1 s2 ev1 -> keeps f ok s2 s3 ev2 ->
  keeps f ok s1 s3 (ev1 ++ ev2)%list.
Proof.
  intros [E1 F1] [E2 F2]. split; [congruence|].
  rewrite forallb_app, F1, F2. reflexivity.
Qed.

(** Walks through a block, statement by statement. *)
Ltac respects_side :=
  solve [ intros; apply keeps_refl
        | intros; eapply keeps_trans; eassumption ].

Ltac respects_step :=
  match goal with
  | |- respects _ (bind _ _) =>
      apply respects_bind; [respects_side .. | | intro]
  | |- respects _ (ret _) => apply respects_ret; respects_side
  | |- respects _ (raise _) => apply respects_raise; respects_side
  | |- respects _ (get _) => apply respects_get; respects_side
  | |- respects _ (try_except _ _) =>
      apply respects_try_except; [respects_side .. | | ]
  | |- respects_handler _ (except _ _) => apply respects_except; intro
  | |- respects_handler _ (except_Exception _) =>
      apply respects_except_Exception; intro
  | |- respects_handler _ (or_except _ _) => apply respects_or_except
  | |- respects _ (emit _) => apply respects_emit; intro; split; reflexivity
  | |- respects _ (modify _) => apply respects_modify; intro; split; reflexivity
  | |- respects _ (match ?x with _ => _ end) => destruct x
  | |- respects _ (if ?x then _ else _) => destruct x
  end.

Ltac respects_walk := repeat respects_step.

Lemma respects_elim {X} (f : State -> X) ok {A} (m : M A) s r s' ev :
  respects (keeps f ok) m -> m s = (r, s', ev) ->
  f s' = f s /\ forallb ok ev = true.
Proof. intros H E. specialize (H s). now rewrite E in H. Qed.
Arguments respects_elim {X f ok A m s r s' ev} _ _.

(* ================================================================== *)
(** * Teardown: [kill_camera_processes] *)

(** The state a teardown leaves: the state it found, with one or two
    answers of [pkill] used up. *)
Definition pkill_used (n : nat) (s : State) : State :=
  with_env (Nat.iter n next_pkill (env s)) s.

(** What a teardown does, by the answers of its two [pkill] runs: the
    second run and the sleep are skipped when the first run raises, the
    sleep when the second does; the exception is logged. *)
Definition teardown_message (e : Exn) : string :=
  if is_class TimeoutExpired e
  then "Warning: Timeout while killing processes"
  else "Error killing processes: " ++ exn_str e.

Definition teardown_log (first second : Z + Exn) : list Event :=
  match first, second with
  | inr e, _ =>
      [Run ["pkill"; "-f"; "libcamera"]; Log (teardown_message e)]
  | inl _, inr e =>
      [Run ["pkill"; "-f"; "libcamera"]; Run ["pkill"; "-f"; "ffmpeg"];
       Log (teardown_message e)]
  | inl _, inl _ =>
      [Run ["pkill"; "-f"; "libcamera"]; Run ["pkill"; "-f"; "ffmpeg"];
       Sleep 2]
  end.

Definition teardown_runs (first : Z + Exn) : nat :=
  match first with inl _ => 2 | inr _ => 1 end.

(** A teardown returns normally whatever [pkill] does, and touches nothing
    but the stream of [pkill]'s answers. *)
Lemma kill_camera_processes_exact (s : State) :
  kill_camera_processes s
  = (Ret tt,
     pkill_used (teardown_runs (shd (pkill (env s)))) s,
     teardown_log (shd (pkill (env s))) (shd (stl (pkill (env s))))).
Proof.
  unfold kill_camera_processes, try_except, bind, subprocess_run, get, modify,
    emit, or_except, except, except_Exception, time_sleep, log_message, ret,
    raise, pkill_used, teardown_log, teardown_message.
  cbn.
  destruct (shd (pkill (env s))) as [rc1|e1]; cbn.
  - destruct (shd (stl (pkill (env s)))) as [rc2|e2]; cbn; [reflexivity|].
    destruct (is_class TimeoutExpired e2); reflexivity.
  - destruct (is_class TimeoutExpired e1); reflexivity.
Qed.

(** Two states that differ at most in what [pkill] is going to answer. *)
Definition forget_pkill (s : State) : State :=
  with_env (mkWorld (hostname (env s)) (net (env s)) (http (env s))
                    (fun _ => inl 0) (spawn (env s)) (exited (env s))
                    (pending (env s)) (remaining (env s)) (clock (env s))) s.

Definition same_but_pkill (s1 s2 : State) : Prop :=
  forget_pkill s1 = forget_pkill s2.

Lemma forget_pkill_used (n : nat) (s : State) :
  forget_pkill (pkill_used n s) = forget_pkill s.
Proof.
  unfold pkill_used. induction n as [|n IH]; [now destruct s|].
  rewrite <- IH. reflexivity.
Qed.

(** A block whose result and effect on the rest of the state do not depend
    on the answers of [pkill]. *)
Definition pkill_blind {A} (m : M A) : Prop :=
  forall s1 s2, same_but_pkill s1 s2 ->
    result_of (m s1) = result_of (m s2)
    /\ same_but_pkill (state_of (m s1)) (state_of (m s2)).

Definition pkill_blind_handler {A} (h : Handler A) : Prop :=
  forall e, match h e with Some k => pkill_blind k | None => True end.

Lemma pkill_blind_ret {A} (a : A) : pkill_blind (ret a).
Proof. now intros s1 s2 H. Qed.

Lemma pkill_blind_raise {A} (e : Exn) : pkill_blind (@raise A e).
Proof. now intros s1 s2 H. Qed.

Lemma pkill_blind_emit (e : Event) : pkill_blind (emit e).
Proof. now intros s1 s2 H. Qed.

Lemma pkill_blind_get {A} (f : State -> A) :
  (forall s, f s = f (forget_pkill s)) -> pkill_blind (get f).
Proof.
  intros Hf s1 s2 H. split; [|exact H]. cbn.
  rewrite (Hf s1), (Hf s2), H. reflexivity.
Qed.

Lemma pkill_blind_modify (f : State -> State) :
  (forall s, forget_pkill (f s) = forget_pkill (f (forget_pkill s))) ->
  pkill_blind (modify f).
Proof.
  intros Hf s1 s2 H. split; [reflexivity|]. unfold same_but_pkill. cbn.
  rewrite (Hf s1), (Hf s2), H. reflexivity.
Qed.

Lemma pkill_blind_bind {A B} (m : M A) (k : A -> M B) :
  pkill_blind m -> (forall a, pkill_blind (k a)) -> pkill_blind (bind m k).
Proof.
  intros Hm Hk s1 s2 H. destruct (Hm s1 s2 H) as [Hr Hs]. unfold bind.
  destruct (m s1) as [[r1 t1] ev1], (m s2) as [[r2 t2] ev2]; cbn in *.
  subst r2. destruct r1 as [a|e]; [|now split].
  destruct (Hk a t1 t2 Hs) as [Hr' Hs'].
  destruct (k a t1) as [[r1' t1'] ev1'], (k a t2) as [[r2' t2'] ev2'].
  now split.
Qed.

Lemma pkill_blind_try_except {A} (m : M A) (h : Handler A) :
  pkill_blind m -> pkill_blind_handler h -> pkill_blind (try_except m h).
Proof.
  intros Hm Hh s1 s2 H. destruct (Hm s1 s2 H) as [Hr Hs]. unfold try_except.
  destruct (m s1) as [[r1 t1] ev1], (m s2) as [[r2 t2] ev2]; cbn in *.
  subst r2. destruct r1 as [a|e]; [now split|].
  specialize (Hh e). destruct (h e) as [k|]; [|now split].
  destruct (Hh t1 t2 Hs) as [Hr' Hs'].
  destruct (k t1) as [[r1' t1'] ev1'], (k t2) as [[r2' t2'] ev2'].
  now split.
Qed.

Lemma pkill_blind_except {A} (c : ExnClass) (h : Exn -> M A) :
  (forall e, pkill_blind (h e)) -> pkill_blind_handler (except c h).
Proof. intros H e. unfold except. destruct (is_class c e); [apply H | exact I]. Qed.

Lemma pkill_blind_except_Exception {A} (h : Exn -> M A) :
  (forall e, pkill_blind (h e)) -> pkill_blind_handler (except_Exception h).
Proof. intros H e. apply H. Qed.

(** The teardown itself: it always returns, and leaves the rest of the
    state alone. *)
Lemma pkill_blind_kill : pkill_blind kill_camera_processes.
Proof.
  intros s1 s2 H.
  rewrite !kill_camera_processes_exact.
  split; [reflexivity|]. unfold same_but_pkill. cbn.
  now rewrite !forget_pkill_used.
Qed.

Ltac pkill_blind_step :=
  match goal with
  | |- pkill_blind kill_camera_processes => apply pkill_blind_kill
  | |- pkill_blind (bind _ _) => apply pkill_blind_bind; [|intro]
  | |- pkill_blind (ret _) => apply pkill_blind_ret
  | |- pkill_blind (raise _) => apply pkill_blind_raise
  | |- pkill_blind (emit _) => apply pkill_blind_emit
  | |- pkill_blind (get _) => apply pkill_blind_get; intro; reflexivity
  | |- pkill_blind (modify _) => apply pkill_blind_modify; intro; reflexivity
  | |- pkill_blind (try_except _ _) => apply pkill_blind_try_except
  | |- pkill_blind_handler (except _ _) => apply pkill_blind_except; intro
  | |- pkill_blind_handler (except_Exception _) =>
      apply pkill_blind_except_Exception; intro
  | |- pkill_blind (match ?x with _ => _ end) => destruct x
  | |- pkill_blind (if ?x then _ else _) => destruct x
  end.

Create HintDb program discriminated.
#[local] Hint Unfold
  print time_sleep time_time socket_create_connection requests_post
  subprocess_Popen poll select_stderr readline_decode read_decode stdout_close
  GPIO_output GPIO_setup GPIO_cleanup log_message start_camera_feed
  check_internet wait_for_internet_loop wait_for_internet_exit
  monitor_process_output start_streaming poll_iteration restart module_level
  boot connect_and_launch stream shutdown main_try : program.

Lemma pkill_blind_retry_loop (retries : list Z) :
  forall processes, pkill_blind (retry_loop retries processes).
Proof.
  induction retries as [|retry retries IH]; intro processes; cbn [retry_loop].
  - apply pkill_blind_ret.
  - apply pkill_blind_bind.
    + autounfold with program. repeat pkill_blind_step.
    + intros [handle|]; [apply pkill_blind_ret|].
      autounfold with program. repeat pkill_blind_step. apply IH.
Qed.

Lemma pkill_blind_body (c : Config) : pkill_blind (body_at c).
Proof.
  unfold body_at. destruct (loc c).
  - autounfold with program. repeat pkill_blind_step.
  - autounfold with program.
    repeat first [pkill_blind_step | apply pkill_blind_retry_loop].
  - autounfold with program. repeat pkill_blind_step.
  - apply pkill_blind_ret.
Qed.

Lemma step_pkill_blind (c1 c2 : Config) :
  loc c1 = loc c2 -> count c1 = count c2 -> same_but_pkill (st c1) (st c2) ->
  loc (step c1) = loc (step c2) /\ count (step c1) = count (step c2)
  /\ same_but_pkill (st (step c1)) (st (step c2)).
Proof.
  intros Hl Hc Hs. unfold step.
  assert (Hb : body_at c1 = body_at c2) by (unfold body_at; now rewrite Hl, Hc).
  assert (Hn : next_count c1 = next_count c2)
    by (unfold next_count; now rewrite Hl, Hc).
  destruct (pkill_blind_body c1 Hs) as [Hr Hs']. rewrite Hb in Hr, Hs' |- *.
  destruct (body_at c2 (st c1)) as [[r1 t1] ev1],
           (body_at c2 (st c2)) as [[r2 t2] ev2]; cbn in *.
  subst r2. destruct r1; cbn; auto.
Qed.

Lemma run_pkill_blind (n : nat) :
  forall c1 c2,
    loc c1 = loc c2 -> count c1 = count c2 -> same_but_pkill (st c1) (st c2) ->
    loc (run n c1) = loc (run n c2) /\ count (run n c1) = count (run n c2)
    /\ same_but_pkill (st (run n c1)) (st (run n c2)).
Proof.
  induction n as [|n IH]; intros c1 c2 Hl Hc Hs; cbn [run]; [auto|].
  destruct (step_pkill_blind c1 c2 Hl Hc Hs) as (Hl' & Hc' & Hs').
  now apply IH.
Qed.

(** The same world with other answers from [pkill]. *)
Definition with_pkill (answers : Stream (Z + Exn)) (w : World) : World :=
  mkWorld (hostname w) (net w) (http w) answers (spawn w)
          (exited w) (pending w) (remaining w) (clock w).

(** C9. Teardown is total and safe to repeat: [kill_camera_processes]
    returns normally in every state, whatever its [pkill] runs answer (no
    process found, a timeout, any other exception), and so does a second
    call right after the first; it changes nothing in the state but the
    answers of [pkill] it has used up; an exception of [pkill] only shows as
    a log line; and where the supervisor stands after any number of steps,
    its counter, the flag [status] and the indicator do not depend on what
    [pkill] answers. *)
Theorem kill_camera_processes_total_idempotent :
  (forall s,
      result_of (kill_camera_processes s) = Ret tt
      /\ state_of (kill_camera_processes s)
         = pkill_used (teardown_runs (shd (pkill (env s)))) s
      /\ events_of (kill_camera_processes s)
         = teardown_log (shd (pkill (env s))) (shd (stl (pkill (env s)))))
  /\ (forall s,
         result_of ((kill_camera_processes ;; kill_camera_processes) s) = Ret tt)
  /\ (forall w answers n,
         let c := run n (init w) in
         let c' := run n (init (with_pkill answers w)) in
         loc c' = loc c /\ count c' = count c
         /\ status (st c') = status (st c) /\ indicator c' = indicator c).
Proof.
  split; [|split].
  - intro s. now rewrite kill_camera_processes_exact.
  - intro s. unfold bind. now rewrite !kill_camera_processes_exact.
  - intros w answers n c c'.
    destruct (run_pkill_blind n (init (with_pkill answers w)) (init w))
      as (Hl & Hc & Hs); try reflexivity.
    subst c c'. repeat split; try assumption.
    + exact (f_equal status Hs).
    + exact (f_equal (fun s => gpio s 18) Hs).
Qed.

(* ================================================================== *)
(** * The launcher: [start_streaming] *)

(** The pair of processes that the answers of the world let the launcher
    bring up: both [Popen] calls succeed and the capture process is still
    alive after the settle delay. *)
Definition launched (w : World) : option (Popen * Popen) :=
  match shd (spawn w), shd (exited w Libcamera), shd (stl (spawn w)) with
  | inl n, None, inl m => Some (mkPopen Libcamera n true, mkPopen Ffmpeg m true)
  | _, _, _ => None
  end.

Lemma start_streaming_result (s : State) :
  result_of (start_streaming s) = Ret (launched (env s)).
Proof.
  unfold start_streaming, try_except, bind. rewrite kill_camera_processes_exact.
  unfold launched, pkill_used.
  destruct (shd (pkill (env s))) as [rc|e0]; cbn;
    (destruct (shd (spawn (env s))) as [n|e1]; cbn; [|reflexivity];
     destruct (shd (exited (env s) Libcamera)) as [code|]; cbn;
     [destruct (shd (remaining (env s) Libcamera)) as [text|e2]; reflexivity|];
     destruct (shd (stl (spawn (env s)))) as [m|e3]; reflexivity).
Qed.

(** What one call of the launcher does, by the answers of the world. *)
Definition start_streaming_log (w : World) : list Event :=
  (teardown_log (shd (pkill w)) (shd (stl (pkill w)))
   ++ [Log "Starting libcamera process..."; Spawn libcamera_command]
   ++ match shd (spawn w) with
      | inr e => [Log ("Error starting stream: " ++ exn_str e)]
      | inl _ =>
          [Sleep 1; Poll Libcamera (shd (exited w Libcamera))]
          ++ match shd (exited w Libcamera) with
             | Some _ =>
                 [ReadAll Libcamera;
                  Log match shd (remaining w Libcamera) with
                      | inl text => "libcamera failed to start: " ++ text
                      | inr e => "Error starting stream: " ++ exn_str e
                      end]
             | None =>
                 [Log "Starting ffmpeg process...";
                  Spawn (ffmpeg_command (RTMP_URL (hostname w)))]
                 ++ match shd (stl (spawn w)) with
                    | inl _ => [CloseStdout Libcamera;
                                Log "Streaming started successfully"]
                    | inr e => [Log ("Error starting stream: " ++ exn_str e)]
                    end
             end
      end)%list.

Lemma start_streaming_events (s : State) :
  events_of (start_streaming s) = start_streaming_log (env s).
Proof.
  unfold start_streaming, try_except, bind. rewrite kill_camera_processes_exact.
  unfold start_streaming_log, pkill_used.
  destruct (shd (pkill (env s))) as [rc|e0]; cbn;
    try (destruct (shd (stl (pkill (env s)))) as [rc'|e0']; cbn);
    (destruct (shd (spawn (env s))) as [n|e1]; cbn; [|reflexivity];
     destruct (shd (exited (env s) Libcamera)) as [code|]; cbn;
     [destruct (shd (remaining (env s) Libcamera)) as [text|e2]; reflexivity|];
     destruct (shd (stl (spawn (env s)))) as [m|e3]; reflexivity).
Qed.

Definition spawns_ffmpeg (e : Event) : bool :=
  match e with
  | Spawn (program :: _) => (program =? "ffmpeg")%string
  | _ => false
  end.

(** C8. The launcher never raises: in every state [start_streaming]
    returns, and it returns the pair of processes exactly when both were
    started and the capture process was alive after the settle delay,
    [None] on every other path (a [Popen] that raises, a capture process
    that has exited, output that cannot be read).  When the capture process
    has exited after the one-second sleep, its remaining output is read and
    a line is logged (the output after "libcamera failed to start: ", or
    the reading error), [None] is returned and ffmpeg is never started. *)
Theorem start_streaming_never_raises :
  (forall s, result_of (start_streaming s) = Ret (launched (env s)))
  /\ (forall s n code,
         shd (spawn (env s)) = inl n ->
         shd (exited (env s) Libcamera) = Some code ->
         result_of (start_streaming s) = Ret None
         /\ existsb spawns_ffmpeg (events_of (start_streaming s)) = false
         /\ exists before,
             events_of (start_streaming s)
             = (before
                ++ [Spawn libcamera_command; Sleep 1;
                    Poll Libcamera (Some code); ReadAll Libcamera;
                    Log match shd (remaining (env s) Libcamera) with
                        | inl text => "libcamera failed to start: " ++ text
                        | inr e => "Error starting stream: " ++ exn_str e
                        end])%list).
Proof.
  split; [exact start_streaming_result|].
  intros s n code Hs He.
  rewrite start_streaming_result, start_streaming_events.
  unfold launched, start_streaming_log. rewrite Hs, He. split; [reflexivity|].
  split.
  - destruct (shd (pkill (env s))), (shd (stl (pkill (env s)))); reflexivity.
  - exists (teardown_log (shd (pkill (env s))) (shd (stl (pkill (env s))))
            ++ [Log "Starting libcamera process..."])%list.
    rewrite <- List.app_assoc. reflexivity.
Qed.

(* ================================================================== *)
(** * The health monitor: [monitor_process_output] *)

Import PyStrFacts.

Arguments any_in : simpl never.

(** How the monitor classifies a line read from a process called
    [process_name]: fatal or not. *)
Definition fatal_line (process_name raw : string) : bool :=
  let error_output := strip raw in
  truthy error_output
  && negb ((process_name =? "libcamera")%string && is_in "INFO" error_output)
  && any_in error_terms (lower error_output).

(** The line the monitor logs for a line it has read, if any. *)
Definition monitor_log (process_name raw : string) : list Event :=
  let error_output := strip raw in
  if truthy error_output then
    if (process_name =? "libcamera")%string && is_in "INFO" error_output
    then [Log ("libcamera info: " ++ error_output)]
    else if any_in error_terms (lower error_output)
    then [Log (process_name ++ " error: " ++ error_output)]
    else [Log (process_name ++ " output: " ++ error_output)]
  else [].

(** The monitor, by what the stderr pipe of the process has to offer. *)
Lemma monitor_process_output_exact (process : Popen) (process_name : string)
    (s : State) :
  stderr process = true ->
  monitor_process_output process process_name s
  = match shd (pending (env s) (prog process)) with
    | None =>
        (Ret false, with_env (next_pending (prog process) (env s)) s,
         [Select (prog process) false])
    | Some (inl raw) =>
        (Ret (fatal_line process_name raw),
         with_env (next_pending (prog process) (env s)) s,
         ([Select (prog process) true; Readline (prog process)]
          ++ monitor_log process_name raw)%list)
    | Some (inr e) =>
        (Raise e, with_env (next_pending (prog process) (env s)) s,
         [Select (prog process) true; Readline (prog process)])
    end.
Proof.
  intro Hpipe. unfold monitor_process_output. rewrite Hpipe.
  unfold bind, select_stderr, get, modify, emit, ret. cbn.
  destruct (shd (pending (env s) (prog process))) as [[raw|e]|]; cbn;
    [|reflexivity|reflexivity].
  unfold fatal_line, monitor_log.
  destruct (truthy (strip raw)); cbn; [|reflexivity].
  destruct ((process_name =? "libcamera")%string && is_in "INFO" (strip raw));
    cbn; [reflexivity|].
  destruct (any_in error_terms (lower (strip raw))); reflexivity.
Qed.

Lemma error_term_shape (token : string) :
  In token error_terms ->
  lower token = token /\ token <> "" /\ no_space token = true.
Proof.
  unfold error_terms. cbn [In].
  intros [<-|[<-|[<-|[<-|[<-|[<-|[]]]]]]]; repeat split; discriminate.
Qed.

(** A line that carries an error term in any letter case is fatal unless
    the exemption for libcamera applies. *)
Lemma fatal_line_error_term (process_name token raw : string) :
  In token error_terms -> ContainsCI token raw ->
  ((process_name =? "libcamera")%string && is_in "INFO" (strip raw)) = false ->
  fatal_line process_name raw = true
  /\ monitor_log process_name raw
     = [Log (process_name ++ " error: " ++ strip raw)].
Proof.
  intros Hin Hci Hex.
  destruct (@error_term_shape token Hin) as (Hlow & Hne & Hns).
  destruct (@ContainsCI_strip_lower token raw) as [Hfound Htruthy];
    rewrite ?Hlow; auto.
  rewrite Hlow in Hfound.
  assert (Hany : any_in error_terms (lower (strip raw)) = true)
    by (eapply any_in_intro; eassumption).
  unfold fatal_line, monitor_log. cbn zeta. now rewrite Htruthy, Hex, Hany.
Qed.

Lemma INFO_survives_strip (raw : string) :
  Contains "INFO" raw ->
  is_in "INFO" (strip raw) = true /\ truthy (strip raw) = true.
Proof.
  intro H. destruct (@Contains_strip "INFO" raw) as [Hc Ht];
    [discriminate | reflexivity | exact H |].
  split; [now apply is_in_spec | exact Ht].
Qed.

Lemma no_INFO_after_strip (raw : string) :
  ~ Contains "INFO" raw -> is_in "INFO" (strip raw) = false.
Proof.
  intro H. destruct (is_in "INFO" (strip raw)) eqn:E; [|reflexivity].
  elim H. apply is_in_spec in E.
  eapply Contains_trans; [exact E | apply strip_Contains].
Qed.

(** C5. A line read from the stderr of the capture process that contains
    "INFO" is benign: the monitor called for "libcamera" logs it as
    "libcamera info: ..." and returns [False], whatever else the line
    contains, an error term included. *)
Theorem libcamera_INFO_line_is_benign
    (process : Popen) (s : State) (raw : string) :
  stderr process = true ->
  shd (pending (env s) (prog process)) = Some (inl raw) ->
  Contains "INFO" raw ->
  result_of (monitor_process_output process "libcamera" s) = Ret false
  /\ events_of (monitor_process_output process "libcamera" s)
     = [Select (prog process) true; Readline (prog process);
        Log ("libcamera info: " ++ strip raw)].
Proof.
  intros Hpipe Hline Hinfo.
  rewrite monitor_process_output_exact, Hline by assumption.
  destruct (INFO_survives_strip Hinfo) as [Hin Htruthy].
  unfold fatal_line, monitor_log, result_of, events_of. cbn.
  now rewrite Htruthy, Hin.
Qed.

(** C10. The exemption is for the name "libcamera" and the exact word
    "INFO" only: a line with an error term in any letter case is fatal when
    the monitor is called for "ffmpeg", even if it contains "INFO", and is
    fatal when the monitor is called for "libcamera" and the line does not
    contain "INFO" in capitals, even if it contains "info". *)
Theorem INFO_exemption_is_narrow
    (process : Popen) (s : State) (raw token : string) :
  stderr process = true ->
  shd (pending (env s) (prog process)) = Some (inl raw) ->
  In token error_terms ->
  ContainsCI token raw ->
  result_of (monitor_process_output process "ffmpeg" s) = Ret true
  /\ (~ Contains "INFO" raw ->
      result_of (monitor_process_output process "libcamera" s) = Ret true).
Proof.
  intros Hpipe Hline Hin Hci. split; [|intro Hno];
    rewrite monitor_process_output_exact, Hline by assumption;
    unfold result_of; cbn; f_equal.
  - now apply (@fatal_line_error_term "ffmpeg" token raw).
  - apply (@fatal_line_error_term "libcamera" token raw); try assumption.
    now rewrite (no_INFO_after_strip Hno).
Qed.

(* ================================================================== *)
(** * One round of the streaming loop: [poll_iteration] *)

(** The pair of processes as [start_streaming] returns it. *)
Definition pipeline (n m : Z) : Popen * Popen :=
  (mkPopen Libcamera n true, mkPopen Ffmpeg m true).




(** Whether reading a line from the stderr of [p] stops the round: the line
    is fatal, or cannot be read. *)
Definition diagnostics_positive (w : World) (p : Proc) (process_name : string)
  : bool :=
  match shd (pending w p) with
  | None => false
  | Some (inl raw) => fatal_line process_name raw
  | Some (inr _) => true
  end.

Definition has_exited (w : World) (p : Proc) : bool :=
  match shd (exited w p) with Some _ => true | None => false end.







(** The probe answers what the connection attempt gave. *)
Lemma check_internet_exact (s : State) :
  check_internet s
  = (Ret (shd (net (env s))), with_env (next_net (env s)) s,
     [Connect (shd (net (env s)))]).
Proof.
  unfold check_internet, socket_create_connection.
  unfold try_except, except, bind, get, modify, emit, ret, raise. cbn.
  destruct (shd (net (env s))); reflexivity.
Qed.

Arguments monitor_process_output : simpl never.
Arguments kill_camera_processes : simpl never.
Arguments check_internet : simpl never.



(** Evaluates one step of the supervisor from the head of the streaming
    loop, by cases on what the world answers. *)
Ltac after_teardown := repeat (rewrite ?kill_camera_processes_exact; cbn).

Ltac streaming_step_cases c Hloc :=
  unfold step, body_at, next_count; rewrite Hloc;
  unfold main_try, shutdown, stream, restart, pipeline, poll_iteration,
    time_time, poll, read_decode, GPIO_output, GPIO_cleanup, log_message,
    time_sleep;
  unfold try_except, except_Exception, bind, get, modify, emit, ret, raise;
  cbn;
  destruct (shd (exited (env (st c)) Libcamera)) as [code|] eqn:Hcam; cbn;
  [ destruct (shd (remaining (env (st c)) Libcamera)) as [text|e] eqn:Hrest;
    cbn; after_teardown
  | destruct (shd (exited (env (st c)) Ffmpeg)) as [code|] eqn:Hpub; cbn;
    [ destruct (shd (remaining (env (st c)) Ffmpeg)) as [text|e] eqn:Hrest;
      cbn; after_teardown
    | rewrite monitor_process_output_exact by reflexivity; cbn;
      destruct (shd (pending (env (st c)) Libcamera)) as [[raw1|e1]|]
        eqn:Hline1; cbn;
      [ destruct (fatal_line "libcamera" raw1) eqn:Hfatal1; cbn | | ];
      after_teardown;
      try (rewrite monitor_process_output_exact by reflexivity; cbn;
           destruct (shd (pending (env (st c)) Ffmpeg)) as [[raw2|e2]|]
             eqn:Hline2; cbn;
           [ destruct (fatal_line "ffmpeg" raw2) eqn:Hfatal2; cbn | | ];
           after_teardown;
           try (rewrite check_internet_exact; cbn;
                destruct (shd (net (env (st c)))) eqn:Hnet; cbn;
                after_teardown)) ] ].

(** Finds the front part of a list, given its rear part. *)
Lemma suffix_here {A} (t : list A) : t = ([] ++ t)%list.
Proof. reflexivity. Qed.

Lemma suffix_cons {A} (a : A) (l b t : list A) :
  l = (b ++ t)%list -> a :: l = ((a :: b) ++ t)%list.
Proof. now intros ->. Qed.

Lemma suffix_app {A} (x l b t : list A) :
  l = (b ++ t)%list -> (x ++ l)%list = ((x ++ b) ++ t)%list.
Proof. intros ->. now rewrite List.app_assoc. Qed.

Ltac find_suffix :=
  solve [ repeat first [ apply suffix_here | apply suffix_cons
                       | apply suffix_app ] ].

(** C6. A line read from the stderr of the publish process that contains
    one of the error terms in any letter case is fatal: the monitor called
    for "ffmpeg" logs it as "ffmpeg error: ..." and returns [True]; and
    when a round of the streaming loop reads such a line (both processes
    alive, nothing fatal from the capture process), the same step of the
    supervisor logs the error, drives the indicator low, runs the teardown
    and goes back to waiting for the network. *)
Theorem ffmpeg_error_line_is_fatal :
  (forall (process : Popen) (s : State) (raw token : string),
      stderr process = true ->
      shd (pending (env s) (prog process)) = Some (inl raw) ->
      In token error_terms ->
      ContainsCI token raw ->
      result_of (monitor_process_output process "ffmpeg" s) = Ret true
      /\ events_of (monitor_process_output process "ffmpeg" s)
         = [Select (prog process) true; Readline (prog process);
            Log ("ffmpeg error: " ++ strip raw)])
  /\ (forall (c : Config) (n m t0 : Z) (raw token : string),
         loc c = Streaming (fst (pipeline n m)) (snd (pipeline n m)) t0 ->
         has_exited (env (st c)) Libcamera = false ->
         has_exited (env (st c)) Ffmpeg = false ->
         diagnostics_positive (env (st c)) Libcamera "libcamera" = false ->
         shd (pending (env (st c)) Ffmpeg) = Some (inl raw) ->
         In token error_terms ->
         ContainsCI token raw ->
         loc (step c) = Waiting
         /\ indicator (step c) = LOW
         /\ exists before,
             trace (step c)
             = (trace c ++ before
                ++ [Log ("ffmpeg error: " ++ strip raw);
                    Log "Error detected in process output";
                    GpioOutput 18 LOW]
                ++ teardown_log (shd (pkill (env (st c))))
                                (shd (stl (pkill (env (st c)))))
                ++ [Log "Restarting streaming service in 3 seconds...";
                    Sleep 3])%list).
Proof.
  split.
  - intros process s raw token Hpipe Hline Hin Hci.
    rewrite monitor_process_output_exact, Hline by assumption.
    destruct (@fatal_line_error_term "ffmpeg" token raw Hin Hci eq_refl)
      as [Hfatal Hlog].
    unfold result_of, events_of. cbn. now rewrite Hfatal, Hlog.
  - intros c n m t0 raw token Hloc Hcam' Hpub' Hdiag Hline Hin Hci.
    destruct (@fatal_line_error_term "ffmpeg" token raw Hin Hci eq_refl)
      as [Hfatal Hlog].
    unfold has_exited in Hcam', Hpub'. unfold diagnostics_positive in Hdiag.
    unfold indicator.
    streaming_step_cases c Hloc; try discriminate;
      injection Hline as <-;
      try (rewrite Hfatal in Hfatal2; discriminate);
      (split; [reflexivity|]; split; [reflexivity|]);
      rewrite Hlog, ?List.app_nil_r, <- ?List.app_assoc; cbn [app];
      eexists; apply (f_equal (app (trace c))); find_suffix.
Qed.

(** Whether a round finds nothing wrong. *)
Definition all_negative (w : World) : bool :=
  negb (has_exited w Libcamera) && negb (has_exited w Ffmpeg)
  && negb (diagnostics_positive w Libcamera "libcamera")
  && negb (diagnostics_positive w Ffmpeg "ffmpeg")
  && shd (net w).



(* ================================================================== *)
(** * Worlds to run the program in *)

(** A quiet world: the network is up, the endpoint answers, [pkill] finds
    nothing to kill, both programs start, stay alive and say nothing. *)
Definition calm : World :=
  mkWorld "helmet"
          (fun _ => true)
          (fun _ => inl "ok")
          (fun _ => inl 1)
          (fun k => inl (100 + Z.of_nat k))
          (fun _ _ => None)
          (fun _ _ => None)
          (fun _ _ => inl "")
          (fun k => Z.of_nat k).

Definition with_net (answers : Stream bool) (w : World) : World :=
  mkWorld (hostname w) answers (http w) (pkill w) (spawn w)
          (exited w) (pending w) (remaining w) (clock w).
Definition with_http (answers : Stream (string + Exn)) (w : World) : World :=
  mkWorld (hostname w) (net w) answers (pkill w) (spawn w)
          (exited w) (pending w) (remaining w) (clock w).
Definition with_spawn (answers : Stream (Z + Exn)) (w : World) : World :=
  mkWorld (hostname w) (net w) (http w) (pkill w) answers
          (exited w) (pending w) (remaining w) (clock w).
Definition with_exited (answers : Proc -> Stream (option Z)) (w : World)
  : World :=
  mkWorld (hostname w) (net w) (http w) (pkill w) (spawn w)
          answers (pending w) (remaining w) (clock w).
Definition with_pending (answers : Proc -> Stream (option (string + Exn)))
    (w : World) : World :=
  mkWorld (hostname w) (net w) (http w) (pkill w) (spawn w)
          (exited w) answers (remaining w) (clock w).

(** A stream that starts with the given answers and goes on with [rest]. *)
Definition starting {A} (first : list A) (rest : A) : Stream A :=
  fun k => nth k first rest.

(** The program state in a given world, a notification already accepted or
    not, the indicator high or low. *)
Definition state_in (w : World) (notified : Z) (level : bool) : State :=
  mkState w notified (fun pin => if pin =? 18 then level else LOW).

(** The supervisor in the streaming loop, in a given world. *)
Definition streaming_in (w : World) : Config :=
  mkConfig (Streaming (fst (pipeline 100 101)) (snd (pipeline 100 101)) 0)
           0 (state_in w 1 HIGH) [].

(* ================================================================== *)
(** * The order of the health checks *)

(** The capture process has exited; the publish process has not. *)
Definition capture_gone : World :=
  with_exited (fun p => match p with
                        | Libcamera => starting [Some 1] None
                        | Ffmpeg => fun _ => None
                        end) calm.



(* ================================================================== *)
(** * What the parts of the program leave alone *)

Create HintDb teardown discriminated.
#[local] Hint Unfold kill_camera_processes subprocess_run : teardown.

Ltac respects_program :=
  repeat (progress autounfold with program teardown);
  respects_walk.

Definition any_event (e : Event) : bool := true.

Definition no_Post (e : Event) : bool :=
  match e with Post _ _ => false | _ => true end.

(** Number of calls of the notification endpoint. *)
Definition posts (ev : list Event) : nat :=
  List.length (filter (fun e => negb (no_Post e)) ev).

Lemma posts_app (ev1 ev2 : list Event) :
  posts (ev1 ++ ev2)%list = (posts ev1 + posts ev2)%nat.
Proof. unfold posts. now rewrite filter_app, List.length_app. Qed.

Lemma no_Post_posts (ev : list Event) : forallb no_Post ev = true -> posts ev = 0%nat.
Proof.
  unfold posts. induction ev as [|e ev IH]; [reflexivity|]. cbn.
  intro H. apply andb_true_iff in H. destruct H as [He Hev].
  rewrite He. cbn. now apply IH.
Qed.

(** Only [GPIO.output] and [GPIO.cleanup] change a pin. *)
Lemma start_streaming_keeps_gpio : respects (keeps gpio any_event) start_streaming.
Proof. respects_program. Qed.

Lemma retry_loop_keeps_gpio (retries : list Z) :
  forall processes, respects (keeps gpio any_event) (retry_loop retries processes).
Proof.
  induction retries as [|retry retries IH]; intro processes; cbn [retry_loop].
  - respects_walk.
  - apply respects_bind; [respects_side .. | apply start_streaming_keeps_gpio |].
    intros [handle|]; [respects_walk|]. autounfold with program.
    respects_walk. apply IH.
Qed.

Lemma wait_for_internet_loop_keeps_gpio :
  respects (keeps gpio any_event) wait_for_internet_loop.
Proof. respects_program. Qed.

Lemma wait_for_internet_exit_keeps_gpio :
  respects (keeps gpio any_event) wait_for_internet_exit.
Proof. respects_program. Qed.

(** Only [wait_for_internet] and [start_camera_feed] touch [status], and
    only [start_camera_feed] calls the endpoint. *)
Lemma start_streaming_keeps_status :
  respects (keeps status no_Post) start_streaming.
Proof. respects_program. Qed.

Lemma retry_loop_keeps_status (retries : list Z) :
  forall processes, respects (keeps status no_Post) (retry_loop retries processes).
Proof.
  induction retries as [|retry retries IH]; intro processes; cbn [retry_loop].
  - respects_walk.
  - apply respects_bind; [respects_side .. | apply start_streaming_keeps_status |].
    intros [handle|]; [respects_walk|]. autounfold with program.
    respects_walk. apply IH.
Qed.

Lemma stream_keeps_status (libcamera_process ffmpeg_process : Popen)
    (stream_start_time count : Z) :
  respects (keeps status no_Post)
           (main_try (stream libcamera_process ffmpeg_process
                             stream_start_time count)).
Proof. respects_program. Qed.

Lemma boot_keeps_status :
  respects (keeps status no_Post) (module_level ;; main_try boot).
Proof. respects_program. Qed.

(* ================================================================== *)
(** * Waiting for the network and notifying *)

Definition camStart_url : string :=
  "https://www.arcturusbusiness.com/helmetFeed/login/camStart.php".

(** The state once one more answer of the network, or of the endpoint, has
    been used. *)
Definition probed (s : State) : State := with_env (next_net (env s)) s.
Definition posted (s : State) : State := with_env (next_http (env s)) s.

Lemma wait_for_internet_loop_exact (s : State) :
  wait_for_internet_loop s
  = if shd (net (env s))
    then (Ret false, probed s, [Connect true])
    else (Ret true, with_status 0 (probed s),
          [Connect false; Log "Waiting for internet connection..."; Sleep 1]).
Proof.
  unfold wait_for_internet_loop, bind. rewrite check_internet_exact.
  destruct (shd (net (env s))); reflexivity.
Qed.

Lemma start_camera_feed_exact (s : State) :
  start_camera_feed s
  = match shd (http (env s)) with
    | inl text =>
        (Ret text, with_status 1 (posted s),
         [Post camStart_url (hostname (env s)); Print ("on camera api: " ++ text)])
    | inr e =>
        (if is_class RequestException e
         then Ret ("Error: " ++ exn_str e) else Raise e,
         posted s, [Post camStart_url (hostname (env s))])
    end.
Proof.
  unfold start_camera_feed, requests_post, print.
  unfold try_except, except, bind, get, modify, emit, ret, raise. cbn.
  destruct (shd (http (env s))) as [text|e]; cbn; [reflexivity|].
  destruct (is_class RequestException e); reflexivity.
Qed.

Arguments start_camera_feed : simpl never.
Arguments wait_for_internet_loop : simpl never.

Lemma wait_for_internet_exit_exact (s : State) :
  wait_for_internet_exit s
  = if status s =? 0
    then match shd (http (env s)) with
         | inl text =>
             (Ret tt, with_status 1 (posted s),
              [Log "Internet connection established!";
               Post camStart_url (hostname (env s));
               Print ("on camera api: " ++ text)])
         | inr e =>
             (if is_class RequestException e then Ret tt else Raise e,
              posted s,
              [Log "Internet connection established!";
               Post camStart_url (hostname (env s))])
         end
    else (Ret tt, s, [Log "Internet connection established!"]).
Proof.
  unfold wait_for_internet_exit, log_message.
  unfold bind, get, emit, ret. cbn.
  destruct (status s =? 0); [|reflexivity].
  rewrite start_camera_feed_exact.
  destruct (shd (http (env s))) as [text|e]; cbn; [reflexivity|].
  destruct (is_class RequestException e); reflexivity.
Qed.

Arguments wait_for_internet_exit : simpl never.

(** The retry loop never raises, and what it hands back is [None] or a
    pair of processes as the launcher makes them. *)
Definition launcher_made (processes : option (Popen * Popen)) : Prop :=
  match processes with
  | None => True
  | Some handles => exists n m, handles = pipeline n m
  end.

Lemma launched_launcher_made (w : World) : launcher_made (launched w).
Proof.
  unfold launched.
  destruct (shd (spawn w)) as [n|]; cbn; [|exact I].
  destruct (shd (exited w Libcamera)); cbn; [exact I|].
  destruct (shd (stl (spawn w))) as [m|]; cbn; [|exact I].
  now exists n, m.
Qed.

Lemma retry_loop_result (retries : list Z) :
  forall processes s,
    launcher_made processes ->
    exists r, result_of (retry_loop retries processes s) = Ret r
              /\ launcher_made r.
Proof.
  induction retries as [|retry retries IH]; intros processes s Hp;
    cbn [retry_loop].
  - now exists processes.
  - unfold bind.
    pose proof (start_streaming_result s) as Hr.
    destruct (start_streaming s) as [[r1 s1] ev1]. cbn in Hr. subst r1.
    pose proof (launched_launcher_made (env s)) as Hl.
    destruct (launched (env s)) as [handles|].
    + exists (Some handles). now split.
    + unfold log_message, time_sleep, emit. cbn.
      destruct (IH None s1 I) as (r & Hr & Hm).
      destruct (retry_loop retries None s1) as [[r2 s2] ev2]. cbn in Hr.
      subst r2. now exists r.
Qed.

(* ================================================================== *)
(** * The steps of the supervisor *)

(** What the step just taken did. *)
Definition step_events (c : Config) : list Event :=
  events_of (body_at c (st c)).

Lemma trace_step (c : Config) : trace (step c) = (trace c ++ step_events c)%list.
Proof.
  unfold step, step_events. now destruct (body_at c (st c)) as [[[l|e] s] ev].
Qed.

Definition shutdown_log (e : Exn) (s : State) : list Event :=
  (Log ("Exited with: " ++ exn_str e)
   :: teardown_log (shd (pkill (env s))) (shd (stl (pkill (env s))))
   ++ [GpioCleanup; GpioCleanup; Log "Process exited"])%list.

Lemma shutdown_exact (e : Exn) (s : State) :
  shutdown e s
  = (Ret Exited,
     with_gpio (fun _ => LOW) (pkill_used (teardown_runs (shd (pkill (env s)))) s),
     shutdown_log e s).
Proof.
  unfold shutdown, shutdown_log, GPIO_cleanup, log_message.
  unfold bind, modify, emit, ret. cbn.
  rewrite kill_camera_processes_exact. reflexivity.
Qed.

Arguments shutdown : simpl never.

(** The first step: module level and the start of [main]. *)
Lemma boot_step (c : Config) :
  loc c = Boot ->
  loc (step c) = Waiting
  /\ gpio (st (step c)) = (fun _ => LOW)
  /\ status (st (step c)) = status (st c)
  /\ posts (step_events c) = 0%nat.
Proof.
  intro Hloc. unfold step_events, step, body_at. rewrite Hloc.
  unfold module_level, main_try, boot, GPIO_cleanup, GPIO_setup, print,
    log_message.
  unfold try_except, bind, get, modify, emit, ret. cbn.
  rewrite kill_camera_processes_exact. cbn.
  repeat split. unfold events_of. cbn.
  apply no_Post_posts.
  destruct (shd (pkill (env (st c)))), (shd (stl (pkill (env (st c))))); reflexivity.
Qed.

(** The pin levels once pin 18 has been driven high. *)
Definition lit (s : State) : State :=
  with_gpio (fun q => if q =? 18 then HIGH else gpio s q) s.

(** A step from the loop test of [wait_for_internet]. *)
Inductive WaitingStep (c : Config) : Prop :=
| StillOffline :
    shd (net (env (st c))) = false ->
    step c = mkConfig Waiting (count c) (with_status 0 (probed (st c)))
               (trace c ++ [Connect false;
                            Log "Waiting for internet connection...";
                            Sleep 1]) ->
    WaitingStep c
| NotifyRaised e s1 ev1 :
    shd (net (env (st c))) = true ->
    wait_for_internet_exit (probed (st c)) = (Raise e, s1, ev1) ->
    loc (step c) = Exited ->
    gpio (st (step c)) = (fun _ => LOW) ->
    status (st (step c)) = status s1 ->
    step_events c = (Connect true :: ev1 ++ shutdown_log e s1)%list ->
    WaitingStep c
| LaunchFailed s1 ev1 s2 ev2 :
    shd (net (env (st c))) = true ->
    wait_for_internet_exit (probed (st c)) = (Ret tt, s1, ev1) ->
    retry_loop (range max_retries) None s1 = (Ret None, s2, ev2) ->
    step c = mkConfig Waiting (count c) s2
               (trace c ++ Connect true :: ev1 ++ ev2
                ++ [Log "Restarting streaming service in 3 seconds...";
                    Sleep 3]) ->
    WaitingStep c
| Launched s1 ev1 s2 ev2 n m :
    shd (net (env (st c))) = true ->
    wait_for_internet_exit (probed (st c)) = (Ret tt, s1, ev1) ->
    retry_loop (range max_retries) None s1 = (Ret (Some (pipeline n m)), s2, ev2) ->
    step c = mkConfig (Streaming (fst (pipeline n m)) (snd (pipeline n m))
                                 (shd (clock (env s2))))
               (count c) (with_env (next_clock (env s2)) (lit s2))
               (trace c ++ Connect true :: ev1 ++ ev2
                ++ [GpioOutput 18 HIGH; Time; Log "Stream started"]) ->
    WaitingStep c.

Ltac waiting_step_eval Hloc Hnet :=
  unfold step_events, step, body_at, next_count; rewrite Hloc;
  unfold main_try, connect_and_launch, try_except, except_Exception, bind;
  rewrite wait_for_internet_loop_exact, Hnet.

Lemma waiting_step (c : Config) : loc c = Waiting -> WaitingStep c.
Proof.
  intro Hloc.
  destruct (shd (net (env (st c)))) eqn:Hnet.
  - destruct (wait_for_internet_exit (probed (st c)))
      as [[[[]|e] s1] ev1] eqn:Hexit.
    + destruct (@retry_loop_result (range max_retries) None s1 I)
        as (r & Hr & Hmade).
      destruct (retry_loop (range max_retries) None s1) as [[r2 s2] ev2] eqn:Hloop.
      cbn in Hr. subst r2.
      destruct r as [[l f]|].
      * destruct Hmade as (n & m & [= -> ->]).
        eapply Launched; try eassumption.
        waiting_step_eval Hloc Hnet. rewrite Hexit, Hloop. reflexivity.
      * eapply LaunchFailed; try eassumption.
        waiting_step_eval Hloc Hnet. rewrite Hexit, Hloop. reflexivity.
    + eapply NotifyRaised; try eassumption;
        waiting_step_eval Hloc Hnet; rewrite Hexit, shutdown_exact; reflexivity.
  - apply StillOffline; [assumption|].
    waiting_step_eval Hloc Hnet. reflexivity.
Qed.

(** A step from the head of the streaming loop: the loop goes on with the
    pins as they were, or it is left with the indicator low, or the
    program is over with every pin released. *)
Lemma streaming_step (c : Config) (n m t0 : Z) :
  loc c = Streaming (fst (pipeline n m)) (snd (pipeline n m)) t0 ->
  (all_negative (env (st c)) = true
   /\ loc (step c) = loc c /\ gpio (st (step c)) = gpio (st c))
  \/ (all_negative (env (st c)) = false
      /\ loc (step c) = Waiting /\ gpio (st (step c)) 18 = LOW)
  \/ (all_negative (env (st c)) = false
      /\ loc (step c) = Exited /\ gpio (st (step c)) = (fun _ => LOW)).
Proof.
  intro Hloc. unfold all_negative, diagnostics_positive, has_exited.
  streaming_step_cases c Hloc;
    rewrite ?Hline1, ?Hline2, ?Hfatal1, ?Hfatal2, ?Hnet, ?Hloc; cbn;
    first [ left; repeat split; reflexivity
          | right; left; repeat split; reflexivity
          | right; right; repeat split; reflexivity ].
Qed.

Lemma streaming_step_quiet (c : Config) l f t0 :
  loc c = Streaming l f t0 ->
  status (st (step c)) = status (st c) /\ posts (step_events c) = 0%nat.
Proof.
  intro Hloc. unfold step_events, step, body_at. rewrite Hloc.
  destruct (main_try (stream l f t0 (count c)) (st c)) as [[r s'] ev] eqn:E.
  destruct (respects_elim (stream_keeps_status l f t0 (count c)) E) as [Hs Hev].
  split; [now destruct r | now apply no_Post_posts].
Qed.

Lemma exited_step (c : Config) : loc c = Exited -> step c = mkConfig Exited (count c) (st c) (trace c ++ []).
Proof. intro Hloc. unfold step, body_at, next_count. now rewrite Hloc. Qed.

(* ================================================================== *)
(** * The status indicator *)

(** The pair held in the streaming loop is one the launcher made. *)
Definition well_formed (c : Config) : Prop :=
  match loc c with
  | Streaming l f _ => exists n m, l = fst (pipeline n m) /\ f = snd (pipeline n m)
  | _ => True
  end.

Definition consistent (c : Config) : Prop :=
  indicator c = streaming c /\ well_formed c.

Lemma step_consistent (c : Config) : consistent c -> consistent (step c).
Proof.
  unfold consistent, indicator, streaming, well_formed.
  intros [Hind Hwf]. destruct (loc c) as [| |l f t0|] eqn:Hloc.
  - destruct (@boot_step c Hloc) as (-> & -> & _). now split.
  - destruct (@waiting_step c Hloc) as [_ ->|e s1 ev1 _ _ -> -> _|
                                       s1 ev1 s2 ev2 _ Hexit Hloop ->|
                                       s1 ev1 s2 ev2 n m _ _ _ ->]; cbn.
    + now split.
    + now split.
    + split; [|exact I].
      destruct (respects_elim (retry_loop_keeps_gpio _ _) Hloop) as [-> _].
      destruct (respects_elim wait_for_internet_exit_keeps_gpio Hexit) as [-> _].
      exact Hind.
    + split; [reflexivity|]. now exists n, m.
  - destruct Hwf as (n & m & -> & ->).
    destruct (@streaming_step c n m t0 Hloc)
      as [(_ & -> & ->)|[(_ & -> & ->)|(_ & -> & ->)]];
      rewrite ?Hloc; split; try exact I; try assumption; try reflexivity.
    now exists n, m.
  - rewrite (@exited_step c Hloc). cbn. now split.
Qed.

Lemma init_consistent (w : World) : consistent (init w).
Proof. now split. Qed.

Lemma run_consistent (n : nat) : forall c, consistent c -> consistent (run n c).
Proof.
  induction n as [|n IH]; intros c H; [exact H|].
  cbn [run]. apply IH. now apply step_consistent.
Qed.

(** C3. In every world and after any number of steps of the supervisor,
    at the head of its loops, the indicator (pin 18) is high exactly when
    the supervisor is in the streaming loop holding the pair of processes.
    So it is low while waiting for the network, after every way out of the
    streaming loop, and once the program is over. *)
Theorem indicator_high_iff_streaming (w : World) (n : nat) :
  indicator (run n (init w)) = streaming (run n (init w)).
Proof. apply (run_consistent n (init_consistent w)). Qed.

(* ================================================================== *)
(** * The retry budget *)

(** A call of the launcher shows as the start of libcamera-vid. *)
Definition is_launch (e : Event) : bool :=
  match e with
  | Spawn (program :: _) => (program =? "libcamera-vid")%string
  | _ => false
  end.

Definition is_success (e : Event) : bool :=
  match e with
  | Log message => (message =? "Streaming started successfully")%string
  | _ => false
  end.

Definition is_sleep3 (e : Event) : bool :=
  match e with Sleep seconds => seconds =? 3 | _ => false end.

Definition count_if (p : Event -> bool) (ev : list Event) : nat :=
  List.length (filter p ev).

Definition attempts : list Event -> nat := count_if is_launch.
Definition successes : list Event -> nat := count_if is_success.
Definition sleeps3 : list Event -> nat := count_if is_sleep3.

(** No two calls of the launcher without a three-second sleep in between;
    [armed] says that the launcher has been called since the last such
    sleep. *)
Fixpoint paced (armed : bool) (ev : list Event) : bool :=
  match ev with
  | [] => true
  | e :: ev' =>
      if is_launch e then negb armed && paced true ev'
      else if is_sleep3 e then paced false ev'
      else paced armed ev'
  end.

(** Events that are none of the above. *)
Definition neutral (e : Event) : bool :=
  negb (is_launch e) && negb (is_success e) && negb (is_sleep3 e).

Lemma count_if_app (p : Event -> bool) (ev1 ev2 : list Event) :
  count_if p (ev1 ++ ev2)%list = (count_if p ev1 + count_if p ev2)%nat.
Proof. unfold count_if. now rewrite filter_app, List.length_app. Qed.

Lemma count_if_cons (p : Event -> bool) (e : Event) (ev : list Event) :
  count_if p (e :: ev) = ((if p e then 1 else 0) + count_if p ev)%nat.
Proof. unfold count_if. cbn. now destruct (p e). Qed.

Lemma neutral_counts (ev : list Event) :
  forallb neutral ev = true ->
  attempts ev = 0%nat /\ successes ev = 0%nat /\ sleeps3 ev = 0%nat
  /\ forall armed rest, paced armed (ev ++ rest)%list = paced armed rest.
Proof.
  unfold attempts, successes, sleeps3, count_if.
  induction ev as [|e ev IH]; [now repeat split|].
  cbn [forallb]. intro H. apply andb_true_iff in H. destruct H as [He Hev].
  destruct (IH Hev) as (Ha & Hs & Hz & Hp).
  unfold neutral in He. apply andb_true_iff in He. destruct He as [He Hz'].
  apply andb_true_iff in He. destruct He as [Ha' Hs'].
  apply negb_true_iff in Ha', Hs', Hz'.
  cbn [filter app paced]. rewrite Ha', Hs', Hz'. auto.
Qed.

Lemma teardown_log_neutral (first second : Z + Exn) :
  forallb neutral (teardown_log first second) = true.
Proof.
  unfold teardown_log, teardown_message.
  destruct first as [|e1]; [destruct second as [|e2]|]; cbn;
    try reflexivity;
    match goal with |- context [is_class ?c ?e] => destruct (is_class c e) end;
    reflexivity.
Qed.

(** One call of the launcher: one attempt, no retry sleep, a success line
    exactly when the pair is handed back. *)
Definition made (processes : option (Popen * Popen)) : nat :=
  match processes with Some _ => 1%nat | None => 0%nat end.

Lemma start_streaming_log_counts (w : World) :
  attempts (start_streaming_log w) = 1%nat
  /\ successes (start_streaming_log w) = made (launched w)
  /\ sleeps3 (start_streaming_log w) = 0%nat
  /\ forall armed rest,
      paced armed (start_streaming_log w ++ rest)%list
      = negb armed && paced true rest.
Proof.
  unfold start_streaming_log, launched.
  destruct (neutral_counts _ (teardown_log_neutral (shd (pkill w)) (shd (stl (pkill w)))))
    as (Ha & Hs & Hz & Hp).
  unfold attempts, successes, sleeps3 in *.
  repeat split; intros; rewrite ?count_if_app, ?Ha, ?Hs, ?Hz, <- ?List.app_assoc, ?Hp;
    destruct (shd (spawn w)) as [n|e1]; cbn; try reflexivity;
    destruct (shd (exited w Libcamera)) as [code|]; cbn;
    try (destruct (shd (remaining w Libcamera)) as [text|e2]; reflexivity);
    destruct (shd (stl (spawn w))) as [m|e3]; reflexivity.
Qed.

Definition succeeded (processes : option (Popen * Popen)) : bool :=
  match processes with Some _ => true | None => false end.

(** The retry loop over the values [retries] of its variable. *)
Lemma retry_loop_events (retries : list Z) :
  forall s r s' ev,
    retry_loop retries None s = (Ret r, s', ev) ->
    (attempts ev <= List.length retries)%nat
    /\ successes ev = made r
    /\ (sleeps3 ev + made r = attempts ev)%nat
    /\ (r = None -> attempts ev = List.length retries)
    /\ (r = None -> retries <> [] -> exists before, ev = (before ++ [Sleep 3])%list)
    /\ forall rest, paced false (ev ++ rest)%list = paced (succeeded r) rest.
Proof.
  induction retries as [|retry retries IH]; intros s r s' ev; cbn [retry_loop].
  - intros [= <- <- <-]. repeat split; auto. now intros _ H.
  - unfold bind.
    pose proof (start_streaming_result s) as Hr.
    pose proof (start_streaming_events s) as He.
    destruct (start_streaming s) as [[r1 s1] ev1]. cbn in Hr, He. subst r1 ev1.
    destruct (start_streaming_log_counts (env s)) as (Ha & Hs & Hz & Hp).
    destruct (launched (env s)) as [handles|] eqn:Hl.
    + intros [= <- <- <-]. rewrite List.app_nil_r. cbn [made succeeded] in *.
      repeat split; try discriminate.
      * rewrite Ha. cbn. lia.
      * exact Hs.
      * rewrite Hz, Ha. reflexivity.
      * intro rest. now rewrite Hp.
    + unfold log_message, time_sleep, emit. cbn.
      destruct (retry_loop retries None s1) as [[r2 s2] ev2] eqn:Hloop.
      destruct r2 as [r2|e]; [|discriminate].
      intros [= <- <- <-].
      destruct (IH _ _ _ _ Hloop) as (Ia & Is & Iz & In' & Ib & Ip).
      unfold attempts, successes, sleeps3 in *.
      rewrite !count_if_app, Ha, Hs, Hz. cbn [made] in *.
      change (count_if is_launch (Log _ :: Sleep 3 :: ev2))
        with (count_if is_launch ev2).
      change (count_if is_success (Log ?m :: Sleep 3 :: ev2))
        with (count_if is_success ev2).
      change (count_if is_sleep3 (Log ?m :: Sleep 3 :: ev2))
        with (S (count_if is_sleep3 ev2)).
      cbn [List.length]. repeat split; try lia.
      * intro Hn. specialize (In' Hn). lia.
      * intros Hn _. destruct retries as [|retry' retries'].
        -- cbn in Hloop. injection Hloop as _ _ <-.
           eexists (_ ++ [_])%list. rewrite <- List.app_assoc. reflexivity.
        -- destruct (Ib Hn ltac:(discriminate)) as [before ->].
           eexists (_ ++ _ :: _ :: before)%list.
           rewrite <- List.app_assoc. reflexivity.
      * intro rest. rewrite <- List.app_assoc, Hp. cbn.
        apply Ip.
Qed.

Definition no_launch (e : Event) : bool := negb (is_launch e).

Lemma no_launch_counts (ev : list Event) :
  forallb no_launch ev = true ->
  attempts ev = 0%nat /\ forall armed, paced armed ev = true.
Proof.
  unfold attempts, count_if, no_launch.
  induction ev as [|e ev IH]; [now split|].
  cbn [forallb]. intro H. apply andb_true_iff in H. destruct H as [He Hev].
  destruct (IH Hev) as [Ha Hp]. apply negb_true_iff in He.
  cbn [filter paced]. rewrite He. split; [exact Ha|].
  intro armed. destruct (is_sleep3 e); apply Hp.
Qed.

Lemma neutral_no_launch (ev : list Event) :
  forallb neutral ev = true -> forallb no_launch ev = true.
Proof.
  induction ev as [|e ev IH]; [reflexivity|]. cbn [forallb].
  intro H. apply andb_true_iff in H. destruct H as [He Hev].
  rewrite (IH Hev), andb_true_r. unfold neutral in He.
  apply andb_true_iff in He. destruct He as [He _].
  apply andb_true_iff in He. now destruct He as [He _].
Qed.

Lemma wait_for_internet_exit_neutral :
  respects (keeps (fun _ => tt) neutral) wait_for_internet_exit.
Proof. respects_program. Qed.

Lemma stream_no_launch (libcamera_process ffmpeg_process : Popen)
    (stream_start_time count : Z) :
  respects (keeps (fun _ => tt) no_launch)
           (main_try (stream libcamera_process ffmpeg_process
                             stream_start_time count)).
Proof. respects_program. Qed.

Lemma boot_no_launch :
  respects (keeps (fun _ => tt) no_launch) (module_level ;; main_try boot).
Proof. respects_program. Qed.

Lemma shutdown_log_neutral (e : Exn) (s : State) :
  forallb neutral (shutdown_log e s) = true.
Proof.
  unfold shutdown_log. cbn [forallb]. rewrite forallb_app, teardown_log_neutral.
  reflexivity.
Qed.

Lemma step_events_eq (c : Config) l n s ev :
  step c = mkConfig l n s (trace c ++ ev) -> step_events c = ev.
Proof.
  intro H. apply (f_equal trace) in H. rewrite trace_step in H. cbn in H.
  now apply List.app_inv_head in H.
Qed.

Definition restart_log : list Event :=
  [Log "Restarting streaming service in 3 seconds..."; Sleep 3].

(** C4. In every step of the supervisor the launcher is called at most
    three times, never twice without a three-second sleep in between.
    When it has been called, either one call succeeded (each call before
    it was followed by its three-second sleep) and the supervisor is
    streaming, or none did: then it was called exactly three times, the
    third failure was followed by its sleep and by the three-second
    cooldown, and the supervisor is back at the connectivity wait, not
    stopped.  This holds from every configuration, so each cycle starts
    with the full budget of three. *)
Theorem retry_budget (c : Config) :
  (attempts (step_events c) <= 3)%nat
  /\ paced false (step_events c) = true
  /\ ((1 <= attempts (step_events c))%nat ->
      (streaming (step c) = true
       /\ successes (step_events c) = 1%nat
       /\ (sleeps3 (step_events c) + 1 = attempts (step_events c))%nat)
      \/ (loc (step c) = Waiting
          /\ successes (step_events c) = 0%nat
          /\ attempts (step_events c) = 3%nat
          /\ exists before,
              step_events c = (before ++ Sleep 3 :: restart_log)%list)).
Proof.
  destruct (loc c) as [| |l f t0|] eqn:Hloc.
  - assert (H : forallb no_launch (step_events c) = true).
    { unfold step_events, body_at. rewrite Hloc.
      apply (boot_no_launch (st c)). }
    destruct (no_launch_counts _ H) as [-> Hp]. rewrite Hp.
    repeat split; lia.
  - destruct (@waiting_step c Hloc) as [_ Hstep|e s1 ev1 _ Hexit _ _ _ Hev|
                                        s1 ev1 s2 ev2 _ Hexit Hloop Hstep|
                                        s1 ev1 s2 ev2 n m _ Hexit Hloop Hstep].
    + rewrite (@step_events_eq _ _ _ _ _ Hstep). cbn. repeat split; lia.
    + destruct (respects_elim wait_for_internet_exit_neutral Hexit) as [_ Hn].
      assert (H : forallb neutral (step_events c) = true).
      { rewrite Hev. cbn [forallb]. now rewrite forallb_app, Hn, shutdown_log_neutral. }
      destruct (no_launch_counts _ (neutral_no_launch _ H)) as [-> Hp].
      rewrite Hp. repeat split; lia.
    + destruct (respects_elim wait_for_internet_exit_neutral Hexit) as [_ Hn].
      destruct (neutral_counts _ Hn) as (Ha1 & Hs1 & Hz1 & Hp1).
      destruct (@retry_loop_events _ _ _ _ _ Hloop) as (Ha & Hs & Hz & Hnone & Hend & Hp).
      change (List.length (range max_retries)) with 3%nat in *.
      specialize (Hnone eq_refl). cbn [made] in Hs, Hz.
      destruct (Hend eq_refl ltac:(discriminate)) as [before Hbefore].
      rewrite (@step_events_eq _ _ _ _ _ Hstep). rewrite Hstep.
      unfold attempts, successes, sleeps3 in *.
      rewrite !count_if_cons, !count_if_app, Ha1, Hs1, Hnone, Hs.
      cbn [paced app is_launch is_sleep3]. rewrite Hp1, Hp.
      repeat split; try (unfold count_if in *; cbn; lia). intros _. right.
      repeat split; try (unfold count_if in *; cbn; lia).
      exists ([Connect true] ++ ev1 ++ before)%list.
      rewrite Hbefore, <- !List.app_assoc. reflexivity.
    + destruct (respects_elim wait_for_internet_exit_neutral Hexit) as [_ Hn].
      destruct (neutral_counts _ Hn) as (Ha1 & Hs1 & Hz1 & Hp1).
      destruct (@retry_loop_events _ _ _ _ _ Hloop) as (Ha & Hs & Hz & _ & _ & Hp).
      change (List.length (range max_retries)) with 3%nat in *.
      cbn [made] in Hs, Hz.
      rewrite (@step_events_eq _ _ _ _ _ Hstep). rewrite Hstep.
      unfold attempts, successes, sleeps3 in *.
      rewrite !count_if_cons, !count_if_app, Ha1, Hs1, Hz1, Hs.
      cbn [paced app is_launch is_sleep3]. rewrite Hp1, Hp.
      repeat split; try solve [unfold count_if in *; cbn; lia];
        intros _; left; repeat split; unfold count_if in *; cbn; lia.
  - assert (H : forallb no_launch (step_events c) = true).
    { unfold step_events, body_at. rewrite Hloc.
      apply (stream_no_launch l f t0 (count c) (st c)). }
    destruct (no_launch_counts _ H) as [-> Hp]. rewrite Hp.
    repeat split; lia.
  - unfold step_events, body_at. rewrite Hloc. cbn. repeat split; lia.
Qed.

(* ================================================================== *)
(** * The notification flag *)

(** The step about to be taken completes the connectivity wait with the
    flag unset. *)
Definition notifies (c : Config) : bool :=
  match loc c with
  | Waiting => shd (net (env (st c))) && (status (st c) =? 0)
  | _ => false
  end.

(** The step about to be taken is a failed probe of the wait loop. *)
Definition wait_probe_fails (c : Config) : bool :=
  match loc c with
  | Waiting => negb (shd (net (env (st c))))
  | _ => false
  end.

(** The flag after the step about to be taken. *)
Definition next_status (c : Config) : Z :=
  match loc c with
  | Waiting =>
      if shd (net (env (st c))) then
        if status (st c) =? 0 then
          match shd (http (env (st c))) with inl _ => 1 | inr _ => 0 end
        else status (st c)
      else 0
  | _ => status (st c)
  end.

Lemma posts_cons (e : Event) (ev : list Event) :
  posts (e :: ev) = ((if no_Post e then 0 else 1) + posts ev)%nat.
Proof. unfold posts. cbn. now destruct (no_Post e). Qed.

Lemma shutdown_log_posts (e : Exn) (s : State) : posts (shutdown_log e s) = 0%nat.
Proof.
  apply no_Post_posts. unfold shutdown_log. cbn [forallb].
  rewrite forallb_app.
  destruct (shd (pkill (env s))), (shd (stl (pkill (env s)))); reflexivity.
Qed.

(** What completing the wait does to the flag and to the endpoint. *)
Lemma wait_for_internet_exit_notify (s s1 : State) r ev1 :
  wait_for_internet_exit s = (r, s1, ev1) ->
  posts ev1 = (if status s =? 0 then 1%nat else 0%nat)
  /\ status s1 = (if status s =? 0
                  then match shd (http (env s)) with inl _ => 1 | inr _ => 0 end
                  else status s).
Proof.
  rewrite wait_for_internet_exit_exact.
  destruct (status s =? 0) eqn:Hst.
  - destruct (shd (http (env s))) as [text|e]; intros [= <- <- <-];
      split; try reflexivity; cbn; now apply Z.eqb_eq.
  - now intros [= <- <- <-].
Qed.

Lemma step_notifications (c : Config) :
  posts (step_events c) = (if notifies c then 1%nat else 0%nat)
  /\ status (st (step c)) = next_status c.
Proof.
  unfold notifies, next_status.
  destruct (loc c) as [| |l f t0|] eqn:Hloc.
  - destruct (@boot_step c Hloc) as (_ & _ & Hs & Hp). now split.
  - destruct (@waiting_step c Hloc) as [-> Hstep|e s1 ev1 -> Hexit _ _ Hs Hev|
                                        s1 ev1 s2 ev2 -> Hexit Hloop Hstep|
                                        s1 ev1 s2 ev2 n m -> Hexit Hloop Hstep].
    + rewrite (@step_events_eq _ _ _ _ _ Hstep), Hstep. now split.
    + destruct (wait_for_internet_exit_notify _ Hexit) as [Hp1 Hs1].
      cbn [andb]. rewrite Hev, Hs, Hs1, posts_cons, posts_app, Hp1,
        shutdown_log_posts. cbn.
      split; [|reflexivity]. destruct (status (st c) =? 0); reflexivity.
    + destruct (wait_for_internet_exit_notify _ Hexit) as [Hp1 Hs1].
      destruct (respects_elim (retry_loop_keeps_status _ _) Hloop) as [Hs2 Hp2].
      rewrite (@step_events_eq _ _ _ _ _ Hstep), Hstep. cbn [st andb].
      rewrite Hs2, Hs1, posts_cons, !posts_app, Hp1, (no_Post_posts _ Hp2). cbn.
      split; [|reflexivity]. destruct (status (st c) =? 0); reflexivity.
    + destruct (wait_for_internet_exit_notify _ Hexit) as [Hp1 Hs1].
      destruct (respects_elim (retry_loop_keeps_status _ _) Hloop) as [Hs2 Hp2].
      rewrite (@step_events_eq _ _ _ _ _ Hstep), Hstep. cbn [st andb].
      change (status (with_env (next_clock (env s2)) (lit s2))) with (status s2).
      rewrite Hs2, Hs1, posts_cons, !posts_app, Hp1, (no_Post_posts _ Hp2). cbn.
      split; [|reflexivity]. destruct (status (st c) =? 0); reflexivity.
  - destruct (@streaming_step_quiet c l f t0 Hloc) as [Hs Hp]. now split.
  - rewrite (@exited_step c Hloc).
    unfold step_events, body_at. rewrite Hloc. now split.
Qed.

(** Once the flag is set it stays set, and the endpoint is not called,
    until a probe of the wait loop fails. *)
Lemma flag_holds (n : nat) :
  forall c,
    status (st c) <> 0 ->
    (forall k, (k < n)%nat -> wait_probe_fails (run k c) = false) ->
    posts (trace (run n c)) = posts (trace c)
    /\ status (st (run n c)) = status (st c).
Proof.
  induction n as [|n IH]; intros c Hst Hprobes; [now split|].
  cbn [run].
  destruct (step_notifications c) as [Hp Hs].
  assert (Hnet : wait_probe_fails c = false) by (apply (Hprobes O); lia).
  assert (Hn : notifies c = false).
  { unfold notifies. destruct (loc c); try reflexivity.
    apply Z.eqb_neq in Hst. rewrite Hst. apply andb_false_r. }
  assert (Hs' : status (st (step c)) = status (st c)).
  { rewrite Hs. unfold next_status. unfold wait_probe_fails in Hnet.
    destruct (loc c); try reflexivity.
    apply negb_false_iff in Hnet. rewrite Hnet.
    apply Z.eqb_neq in Hst. now rewrite Hst. }
  destruct (IH (step c)) as [Hp' Hs''].
  - now rewrite Hs'.
  - intros k Hk. apply (Hprobes (S k)). lia.
  - rewrite Hp', Hs'', Hs', trace_step, posts_app, Hp, Hn. split; [lia|reflexivity].
Qed.

(** Neither program can be started. *)
Definition unlaunchable : World :=
  with_spawn (fun _ => inr (mkExn OSError "[Errno 2] No such file or directory"))
             calm.

(** The endpoint refuses the first call and accepts the later ones; the
    network is up throughout. *)
Definition endpoint_down_once : World :=
  with_http (starting [inr (mkExn RequestException "503 Server Error")] (inl "ok"))
            unlaunchable.

(** The network is up, is seen down once by the streaming loop, and is up
    again by the time the wait loop looks. *)
Definition blip : World := with_net (starting [true; false] true) calm.

(** C2 as stated fails: the network is up throughout, so there is one
    connectivity epoch, and the endpoint is called twice in it, the second
    time because the first call failed. *)
Lemma notification_retried_counterexample :
  (forall k, net endpoint_down_once k = true)
  /\ posts (trace (run 2 (init endpoint_down_once))) = 1%nat
  /\ status (st (run 2 (init endpoint_down_once))) = 0
  /\ posts (trace (run 3 (init endpoint_down_once))) = 2%nat.
Proof.
  split; [intro k; reflexivity|]. repeat split; vm_compute; reflexivity.
Qed.

(** A connectivity probe made by the step about to be taken, in the wait
    loop or in the streaming loop, finds the network down. *)
Definition probe_fails (c : Config) : bool :=
  existsb (fun e => match e with Connect false => true | _ => false end)
          (step_events c).

Lemma wait_probe_fails_seen (c : Config) :
  wait_probe_fails c = true -> probe_fails c = true.
Proof.
  unfold wait_probe_fails. destruct (loc c) eqn:Hloc; try discriminate.
  intro H. apply negb_true_iff in H.
  destruct (@waiting_step c Hloc) as [_ Hstep|e s1 ev1 Hnet _ _ _ _ _|
                                      s1 ev1 s2 ev2 Hnet _ _ _|
                                      s1 ev1 s2 ev2 n m Hnet _ _ _];
    try (rewrite Hnet in H; discriminate).
  unfold probe_fails. now rewrite (@step_events_eq _ _ _ _ _ Hstep).
Qed.

Lemma epoch_wait_probes (c : Config) (n : nat) :
  (forall k, (k < n)%nat -> probe_fails (run k c) = false) ->
  forall k, (k < n)%nat -> wait_probe_fails (run k c) = false.
Proof.
  intros H k Hk. destruct (wait_probe_fails (run k c)) eqn:E; [|reflexivity].
  apply wait_probe_fails_seen in E. now rewrite (H k Hk) in E.
Qed.

(** Within an epoch a step changes the flag only by a call of the
    endpoint. *)
Lemma epoch_step_notifications (c : Config) :
  probe_fails c = false ->
  posts (step_events c) = (if notifies c then 1%nat else 0%nat)
  /\ status (st (step c))
     = (if notifies c
        then match shd (http (env (st c))) with inl _ => 1 | inr _ => 0 end
        else status (st c)).
Proof.
  intro Hup. destruct (step_notifications c) as [Hp Hs]. split; [exact Hp|].
  rewrite Hs. unfold next_status, notifies.
  destruct (wait_probe_fails c) eqn:Hw;
    [apply wait_probe_fails_seen in Hw; rewrite Hup in Hw; discriminate|].
  unfold wait_probe_fails in Hw. destruct (loc c); try reflexivity.
  apply negb_false_iff in Hw. rewrite Hw. cbn [andb].
  now destruct (status (st c) =? 0).
Qed.

(** C2, amended.  A connectivity epoch is a stretch of the run in which no
    connectivity probe, of the wait loop or of the streaming loop, finds
    the network down.  Within an epoch of [n] steps from [c]: the endpoint
    is called exactly once by each step that completes the wait with the
    flag unset, and by no other step, and the flag changes only there, to
    set exactly when the call succeeded.  Once the flag is set, it stays
    set and the endpoint is not called again for the rest of the epoch,
    however often the supervisor comes back to the wait; so an epoch that
    starts at the wait with the flag unset and whose first call succeeds
    has exactly one call.  A call that fails with a [RequestException]
    leaves the flag unset, logs nothing and lets the wait complete
    normally, so the endpoint is called again when the wait next
    completes. *)
Theorem notification_once_per_epoch (c : Config) (n : nat) :
  (forall k, (k < n)%nat -> probe_fails (run k c) = false) ->
  (forall k, (k < n)%nat ->
      posts (step_events (run k c))
      = (if notifies (run k c) then 1%nat else 0%nat)
      /\ status (st (step (run k c)))
         = (if notifies (run k c)
            then match shd (http (env (st (run k c)))) with
                 | inl _ => 1
                 | inr _ => 0
                 end
            else status (st (run k c))))
  /\ (status (st c) <> 0 ->
      posts (trace (run n c)) = posts (trace c)
      /\ status (st (run n c)) = status (st c))
  /\ (forall text,
         (0 < n)%nat ->
         loc c = Waiting ->
         status (st c) = 0 ->
         shd (http (env (st c))) = inl text ->
         posts (trace (run n c)) = S (posts (trace c))
         /\ status (st (run n c)) = 1)
  /\ (forall s e,
         status s = 0 ->
         shd (http (env s)) = inr e ->
         is_class RequestException e = true ->
         wait_for_internet_exit s
         = (Ret tt, posted s,
            [Log "Internet connection established!";
             Post camStart_url (hostname (env s))])
         /\ status (posted s) = 0).
Proof.
  intro Hup. pose proof (epoch_wait_probes c Hup) as Hwait.
  split; [|split; [|split]].
  - intros k Hk. apply epoch_step_notifications. now apply Hup.
  - intro Hst. now apply flag_holds.
  - intros text Hn Hloc Hst Hhttp. destruct n as [|n]; [lia|]. cbn [run].
    destruct (@epoch_step_notifications c (Hup O Hn)) as [Hp Hs].
    assert (Hnet : shd (net (env (st c))) = true).
    { pose proof (Hwait O Hn) as Hw. cbn [run] in Hw.
      unfold wait_probe_fails in Hw. rewrite Hloc in Hw.
      now apply negb_false_iff in Hw. }
    assert (Hnot : notifies c = true).
    { unfold notifies. rewrite Hloc, Hnet, Hst. reflexivity. }
    rewrite Hnot, Hhttp in Hs. rewrite Hnot in Hp.
    destruct (@flag_holds n (step c)) as [Hp' Hs'].
    + rewrite Hs. discriminate.
    + intros k Hk. apply (Hwait (S k)). lia.
    + rewrite Hp', Hs', Hs, trace_step, posts_app, Hp. split; [lia|reflexivity].
  - intros s e Hst Hhttp Hclass. split; [|exact Hst].
    rewrite wait_for_internet_exit_exact, Hst, Hhttp, Hclass. reflexivity.
Qed.

Lemma notification_once_per_epoch_witness :
  (* the programs cannot be started, so every step comes back to the
     wait; the network is up and the endpoint answers *)
  map loc [run 1 (init unlaunchable); run 2 (init unlaunchable);
           run 3 (init unlaunchable); run 4 (init unlaunchable);
           run 5 (init unlaunchable)]
  = [Waiting; Waiting; Waiting; Waiting; Waiting]
  /\ (posts (trace (run 4 (run 1 (init unlaunchable))))
      = S (posts (trace (run 1 (init unlaunchable))))
      /\ status (st (run 4 (run 1 (init unlaunchable)))) = 1)
  /\ (* a refused call *)
     (wait_for_internet_exit (state_in endpoint_down_once 0 LOW)
      = (Ret tt, posted (state_in endpoint_down_once 0 LOW),
         [Log "Internet connection established!";
          Post camStart_url "helmet"])
      /\ status (posted (state_in endpoint_down_once 0 LOW)) = 0).
Proof.
  assert (Hup : forall k, (k < 4)%nat ->
                          probe_fails (run k (run 1 (init unlaunchable))) = false).
  { intros k Hk. destruct k as [|[|[|[|k]]]]; [vm_compute; reflexivity ..|lia]. }
  destruct (@notification_once_per_epoch (run 1 (init unlaunchable)) 4 Hup)
    as (_ & _ & Honce & Hfails).
  split; [vm_compute; reflexivity|]. split.
  - apply (Honce "ok"); [lia|reflexivity ..].
  - apply (Hfails (state_in endpoint_down_once 0 LOW)
                  (mkExn RequestException "503 Server Error"));
      reflexivity.
Defined.

(** The epoch ends where the streaming loop sees the network down: the
    third step at [blip] is outside every epoch. *)
Example blip_ends_epoch :
  probe_fails (run 0 (init blip)) = false
  /\ probe_fails (run 1 (init blip)) = false
  /\ probe_fails (run 2 (init blip)) = true.
Proof. repeat split; vm_compute; reflexivity. Qed.

(** C1 at the failing input.  The streaming loop sees the network down
    once; the wait loop then finds it up at its first probe.  The flag is
    still set, so the wait completes a second time without a second call
    of the endpoint. *)
Theorem streaming_loss_keeps_flag :
  let c := run 4 (init blip) in
  filter (fun e => match e with Connect _ => true | _ => false end) (trace c)
  = [Connect true; Connect false; Connect true]
  /\ count_if (fun e => match e with
                        | Log m => (m =? "Internet connection established!")%string
                        | _ => false
                        end) (trace c) = 2%nat
  /\ status (st (run 3 (init blip))) = 1
  /\ posts (trace c) = 1%nat.
Proof. cbv zeta. repeat split; vm_compute; reflexivity. Qed.

(** The general fact behind it: no step from the streaming loop touches
    the flag. *)
Lemma streaming_loss_status (c : Config) l f t0 :
  loc c = Streaming l f t0 -> status (st (step c)) = status (st c).
Proof. intro Hloc. now destruct (@streaming_step_quiet c l f t0 Hloc). Qed.

(* ================================================================== *)
(** * The theorems at work *)

(** What the stderr pipes hold: one line for one of the processes. *)
Definition says (p : Proc) (line : string) : World :=
  with_pending (fun q => if Proc_eqb q p
                         then starting [Some (inl line)] None
                         else fun _ => None) calm.

Lemma libcamera_INFO_line_is_benign_witness :
  result_of (monitor_process_output
               (fst (pipeline 100 101)) "libcamera"
               (state_in (says Libcamera "  INFO Camera camera.cpp:1033 error recovered ")
                         1 HIGH))
  = Ret false
  /\ events_of (monitor_process_output
                  (fst (pipeline 100 101)) "libcamera"
                  (state_in (says Libcamera "  INFO Camera camera.cpp:1033 error recovered ")
                            1 HIGH))
     = [Select Libcamera true; Readline Libcamera;
        Log "libcamera info: INFO Camera camera.cpp:1033 error recovered"].
Proof.
  apply (@libcamera_INFO_line_is_benign
           (fst (pipeline 100 101))
           (state_in (says Libcamera "  INFO Camera camera.cpp:1033 error recovered ")
                     1 HIGH)
           "  INFO Camera camera.cpp:1033 error recovered ").
  - reflexivity.
  - reflexivity.
  - exists "  ", " Camera camera.cpp:1033 error recovered ". reflexivity.
Defined.

Lemma INFO_exemption_is_narrow_witness :
  result_of (monitor_process_output
               (snd (pipeline 100 101)) "ffmpeg"
               (state_in (says Ffmpeg "camera info: Timeout waiting for frame") 1 HIGH))
  = Ret true
  /\ result_of (monitor_process_output
                  (snd (pipeline 100 101)) "libcamera"
                  (state_in (says Ffmpeg "camera info: Timeout waiting for frame") 1 HIGH))
     = Ret true.
Proof.
  destruct (@INFO_exemption_is_narrow
              (snd (pipeline 100 101))
              (state_in (says Ffmpeg "camera info: Timeout waiting for frame") 1 HIGH)
              "camera info: Timeout waiting for frame" "timeout")
    as [Hffmpeg Hlibcamera].
  - reflexivity.
  - reflexivity.
  - simpl. tauto.
  - exists "camera info: ", "Timeout", " waiting for frame". split; reflexivity.
  - split; [exact Hffmpeg|]. apply Hlibcamera.
    intro H. apply is_in_spec in H. vm_compute in H. discriminate.
Defined.

(** The same for a line of ffmpeg that carries "INFO" in capitals. *)
Example ffmpeg_INFO_error_line :
  result_of (monitor_process_output
               (snd (pipeline 100 101)) "ffmpeg"
               (state_in (says Ffmpeg "INFO: muxer Failed to update header") 1 HIGH))
  = Ret true.
Proof. vm_compute. reflexivity. Qed.

Lemma ffmpeg_error_line_is_fatal_witness :
  (result_of (monitor_process_output
                (snd (pipeline 100 101)) "ffmpeg"
                (state_in (says Ffmpeg "[rtmp @ 0x55d0] Connection TIMEOUT ") 1 HIGH))
   = Ret true)
  /\ loc (step (streaming_in (says Ffmpeg "[rtmp @ 0x55d0] Connection TIMEOUT ")))
     = Waiting
  /\ indicator (step (streaming_in (says Ffmpeg "[rtmp @ 0x55d0] Connection TIMEOUT ")))
     = LOW.
Proof.
  destruct ffmpeg_error_line_is_fatal as [Hmonitor Hstep].
  assert (Hci : ContainsCI "timeout" "[rtmp @ 0x55d0] Connection TIMEOUT ").
  { exists "[rtmp @ 0x55d0] Connection ", "TIMEOUT", " ". split; reflexivity. }
  assert (Hin : In "timeout" error_terms) by (simpl; tauto).
  split.
  - apply (Hmonitor (snd (pipeline 100 101))
                    (state_in (says Ffmpeg "[rtmp @ 0x55d0] Connection TIMEOUT ") 1 HIGH)
                    "[rtmp @ 0x55d0] Connection TIMEOUT " "timeout");
      [reflexivity | reflexivity | exact Hin | exact Hci].
  - destruct (Hstep (streaming_in (says Ffmpeg "[rtmp @ 0x55d0] Connection TIMEOUT "))
                    100 101 0 "[rtmp @ 0x55d0] Connection TIMEOUT " "timeout")
      as (Hloc & Hlow & _);
      [reflexivity | reflexivity | reflexivity | reflexivity | reflexivity
      | exact Hin | exact Hci |].
    now split.
Defined.

Lemma start_streaming_never_raises_witness :
  result_of (start_streaming (state_in capture_gone 0 LOW)) = Ret None
  /\ existsb spawns_ffmpeg (events_of (start_streaming (state_in capture_gone 0 LOW)))
     = false
  /\ exists before,
      events_of (start_streaming (state_in capture_gone 0 LOW))
      = (before
         ++ [Spawn libcamera_command; Sleep 1; Poll Libcamera (Some 1);
             ReadAll Libcamera; Log "libcamera failed to start: "])%list.
Proof.
  destruct start_streaming_never_raises as [_ Hearly].
  apply (Hearly (state_in capture_gone 0 LOW) 100 1); reflexivity.
Defined.

(** A cycle in which nothing can be started. *)
Definition waiting_in (w : World) : Config :=
  mkConfig Waiting 0 (state_in w 1 LOW) [].

Lemma retry_budget_witness :
  (attempts (step_events (waiting_in unlaunchable)) <= 3)%nat
  /\ paced false (step_events (waiting_in unlaunchable)) = true
  /\ ((streaming (step (waiting_in unlaunchable)) = true
       /\ successes (step_events (waiting_in unlaunchable)) = 1%nat
       /\ (sleeps3 (step_events (waiting_in unlaunchable)) + 1
           = attempts (step_events (waiting_in unlaunchable)))%nat)
      \/ (loc (step (waiting_in unlaunchable)) = Waiting
          /\ successes (step_events (waiting_in unlaunchable)) = 0%nat
          /\ attempts (step_events (waiting_in unlaunchable)) = 3%nat
          /\ exists before,
              step_events (waiting_in unlaunchable)
              = (before ++ Sleep 3 :: restart_log)%list)).
Proof.
  destruct (retry_budget (waiting_in unlaunchable)) as (Hmost & Hpaced & Hcalled).
  split; [exact Hmost|]. split; [exact Hpaced|].
  apply Hcalled. vm_compute. lia.
Defined.

(** The budget is full again in the next cycle, and the supervisor goes on
    waiting and trying. *)
Example retry_budget_next_cycle :
  attempts (step_events (run 1 (init unlaunchable))) = 3%nat
  /\ attempts (step_events (run 2 (init unlaunchable))) = 3%nat
  /\ loc (run 3 (init unlaunchable)) = Waiting.
Proof. repeat split; vm_compute; reflexivity. Qed.

(** The way the program ends: a line of ffmpeg that cannot be decoded
    raises in the streaming loop; the exception is logged, the teardown
    runs, the pins are released. *)
Definition garbled : World :=
  with_pending (fun q => match q with
                         | Ffmpeg => starting [Some (inr (mkExn UnicodeDecodeError
                                        "'utf-8' codec can't decode byte 0xff"))] None
                         | Libcamera => fun _ => None
                         end) calm.

Example shutdown_leaves_indicator_low :
  loc (run 2 (init garbled)) = Streaming (fst (pipeline 100 101))
                                         (snd (pipeline 100 101)) 0
  /\ indicator (run 2 (init garbled)) = HIGH
  /\ loc (run 3 (init garbled)) = Exited
  /\ indicator (run 3 (init garbled)) = LOW
  /\ step_events (run 2 (init garbled))
     = [Time; Log "Stream uptime: 1 seconds (loop count: 0)";
        Poll Libcamera None; Poll Ffmpeg None; Select Libcamera false;
        Select Ffmpeg true; Readline Ffmpeg;
        Log "Exited with: 'utf-8' codec can't decode byte 0xff";
        Run ["pkill"; "-f"; "libcamera"]; Run ["pkill"; "-f"; "ffmpeg"]; Sleep 2;
        GpioCleanup; GpioCleanup; Log "Process exited"].
Proof. repeat split; vm_compute; reflexivity. Qed.

(** [wait_for_internet] as a whole returns as soon as a probe succeeds:
    with the first success at the probe number [k], [k + 1] rounds of its
    loop are enough. *)
Lemma wait_for_internet_returns (k : nat) :
  forall s,
    net (env s) k = true ->
    (forall j, (j < k)%nat -> net (env s) j = false) ->
    result_of (wait_for_internet (S k) s) <> Ret None.
Proof.
  induction k as [|k IH]; intros s Hup Hdown.
  - cbn [wait_for_internet]. unfold bind. rewrite wait_for_internet_loop_exact.
    change (shd (net (env s))) with (net (env s) O). rewrite Hup.
    destruct (wait_for_internet_exit (probed s)) as [[[[]|e] s1] ev1];
      discriminate.
  - assert (Hrec : result_of (wait_for_internet (S k) (with_status 0 (probed s)))
                   <> Ret None).
    { apply IH; [exact Hup|]. intros j Hj. apply (Hdown (S j)). lia. }
    change (wait_for_internet (S (S k)) s)
      with (bind wait_for_internet_loop
                 (fun again => if again then wait_for_internet (S k)
                               else wait_for_internet_exit ;; ret (Some tt)) s).
    unfold bind at 1. rewrite wait_for_internet_loop_exact.
    change (shd (net (env s))) with (net (env s) O).
    rewrite (Hdown O) by lia.
    destruct (wait_for_internet (S k) (with_status 0 (probed s)))
      as [[r s1] ev1].
    exact Hrec.
Qed.

Example wait_for_internet_third_probe :
  result_of (wait_for_internet 3
               (state_in (with_net (starting [false; false] true) calm) 1 LOW))
  = Ret (Some tt)
  /\ posts (events_of (wait_for_internet 3
               (state_in (with_net (starting [false; false] true) calm) 1 LOW)))
     = 1%nat.
Proof. split; vm_compute; reflexivity. Qed.

(* ================================================================== *)
(** * Further properties of the health monitor *)

(** Lowering keeps the positions of the characters, so an occurrence in the
    lowered string comes from an occurrence in the string itself. *)
Lemma lower_app_inv (a b : string) :
  forall s, lower s = a ++ b ->
            exists s1 s2, s = s1 ++ s2 /\ lower s1 = a /\ lower s2 = b.
Proof.
  induction a as [|c a IH]; intros s H.
  - now exists "", s.
  - destruct s as [|d s]; [discriminate|]. cbn in H.
    injection H as Hc Hs. destruct (IH s Hs) as (s1 & s2 & -> & H1 & H2).
    exists (String d s1), s2. cbn. now rewrite Hc, H1.
Qed.

Lemma Contains_lower_inv (token s : string) :
  Contains token (lower s) ->
  exists pre mid post, s = pre ++ mid ++ post /\ lower mid = token.
Proof.
  intros (a & b & H).
  destruct (lower_app_inv a (token ++ b) s H) as (pre & rest & -> & _ & Hrest).
  destruct (lower_app_inv token b rest Hrest) as (mid & post & -> & Hmid & _).
  now exists pre, mid, post.
Qed.

Lemma ContainsCI_of_strip (token raw : string) :
  ContainsCI token (strip raw) -> ContainsCI token raw.
Proof.
  intros (pre & mid & post & E & Hmid).
  destruct (strip_Contains raw) as (a & b & Hraw).
  exists (a ++ pre), mid, (post ++ b). split; [|exact Hmid].
  rewrite Hraw, E, !PyStrFacts.app_assoc. reflexivity.
Qed.

(** A fatal verdict always comes from an error term in the line. *)
Lemma fatal_line_inv (process_name raw : string) :
  fatal_line process_name raw = true ->
  (exists token, In token error_terms /\ ContainsCI token raw)
  /\ ((process_name =? "libcamera")%string && is_in "INFO" (strip raw)) = false.
Proof.
  unfold fatal_line. cbn zeta. intro H.
  apply andb_true_iff in H. destruct H as [H Hany].
  apply andb_true_iff in H. destruct H as [_ Hex].
  apply negb_true_iff in Hex. split; [|exact Hex].
  apply existsb_exists in Hany. destruct Hany as (token & Hin & Hfound).
  exists token. split; [exact Hin|].
  apply ContainsCI_of_strip. apply is_in_spec in Hfound.
  destruct (@Contains_lower_inv _ _ Hfound) as (pre & mid & post & E & Hmid).
  exists pre, mid, post. split; [exact E|].
  now rewrite (proj1 (error_term_shape Hin)).
Qed.

(** X1. The monitor reports a fatal line exactly when the line carries one
    of the error terms in some letter case and the exemption does not
    apply, the exemption being: called for "libcamera" on a line that
    contains "INFO". *)
Theorem monitor_fatal_iff
    (process : Popen) (process_name : string) (s : State) (raw : string) :
  stderr process = true ->
  shd (pending (env s) (prog process)) = Some (inl raw) ->
  result_of (monitor_process_output process process_name s) = Ret true
  <-> (exists token, In token error_terms /\ ContainsCI token raw)
      /\ ~ (process_name = "libcamera" /\ Contains "INFO" raw).
Proof.
  intros Hpipe Hline.
  rewrite monitor_process_output_exact, Hline by assumption.
  unfold result_of. cbn. split.
  - intros [= Hfatal]. destruct (@fatal_line_inv _ _ Hfatal) as [Hterm Hex].
    split; [exact Hterm|]. intros [-> Hinfo].
    destruct (INFO_survives_strip Hinfo) as [Hin _].
    cbn in Hex. now rewrite Hin in Hex.
  - intros [(token & Hin & Hci) Hno]. f_equal.
    apply (@fatal_line_error_term process_name token raw Hin Hci).
    destruct (process_name =? "libcamera")%string eqn:Hname; [|reflexivity].
    destruct (is_in "INFO" (strip raw)) eqn:Hinfo; [|reflexivity].
    elim Hno. split; [now apply String.eqb_eq|].
    apply is_in_spec in Hinfo.
    eapply Contains_trans; [exact Hinfo | apply strip_Contains].
Qed.

Lemma monitor_fatal_iff_witness :
  result_of (monitor_process_output
               (fst (pipeline 100 101)) "libcamera"
               (state_in (says Libcamera "ERROR: *** no cameras available ***") 1 HIGH))
  = Ret true
  <-> (exists token, In token error_terms
                     /\ ContainsCI token "ERROR: *** no cameras available ***")
      /\ ~ ("libcamera" = "libcamera"
            /\ Contains "INFO" "ERROR: *** no cameras available ***").
Proof.
  apply (@monitor_fatal_iff
           (fst (pipeline 100 101)) "libcamera"
           (state_in (says Libcamera "ERROR: *** no cameras available ***") 1 HIGH)
           "ERROR: *** no cameras available ***"); reflexivity.
Defined.

(** White space only. *)
Fixpoint all_space (s : string) : bool :=
  match s with
  | EmptyString => true
  | String c s' => isspace c && all_space s'
  end.

Lemma strip_all_space (s : string) : all_space s = true -> strip s = "".
Proof.
  unfold strip. induction s as [|c s IH]; [reflexivity|]. cbn.
  intro H. apply andb_true_iff in H. destruct H as [Hc Hs].
  rewrite Hc. now apply IH.
Qed.

(** X2. The monitor never reads unless [select] reported data, and it
    ignores what carries no text: with no stderr pipe it does nothing; with
    nothing to read it returns [False] after the [select] alone; a line of
    white space only is read, not logged, and gives [False].  A read that
    raises is not caught here. *)
Theorem monitor_ignores_silence :
  (forall process process_name s,
      stderr process = false ->
      monitor_process_output process process_name s = (Ret false, s, []))
  /\ (forall process process_name s,
         stderr process = true ->
         shd (pending (env s) (prog process)) = None ->
         result_of (monitor_process_output process process_name s) = Ret false
         /\ events_of (monitor_process_output process process_name s)
            = [Select (prog process) false])
  /\ (forall process process_name s raw,
         stderr process = true ->
         shd (pending (env s) (prog process)) = Some (inl raw) ->
         all_space raw = true ->
         result_of (monitor_process_output process process_name s) = Ret false
         /\ events_of (monitor_process_output process process_name s)
            = [Select (prog process) true; Readline (prog process)])
  /\ (forall process process_name s e,
         stderr process = true ->
         shd (pending (env s) (prog process)) = Some (inr e) ->
         result_of (monitor_process_output process process_name s) = Raise e).
Proof.
  split; [|split; [|split]].
  - intros process process_name s Hpipe.
    unfold monitor_process_output. now rewrite Hpipe.
  - intros process process_name s Hpipe Hnone.
    rewrite monitor_process_output_exact, Hnone by assumption. now split.
  - intros process process_name s raw Hpipe Hline Hblank.
    rewrite monitor_process_output_exact, Hline by assumption.
    unfold result_of, events_of, fatal_line, monitor_log. cbn.
    now rewrite (@strip_all_space _ Hblank).
  - intros process process_name s e Hpipe Hline.
    now rewrite monitor_process_output_exact, Hline by assumption.
Qed.

Lemma monitor_ignores_silence_witness :
  (result_of (monitor_process_output (fst (pipeline 100 101)) "libcamera"
                                     (state_in calm 1 HIGH)) = Ret false
   /\ events_of (monitor_process_output (fst (pipeline 100 101)) "libcamera"
                                        (state_in calm 1 HIGH))
      = [Select Libcamera false])
  /\ (result_of (monitor_process_output (snd (pipeline 100 101)) "ffmpeg"
                                        (state_in (says Ffmpeg "   ") 1 HIGH))
      = Ret false
      /\ events_of (monitor_process_output (snd (pipeline 100 101)) "ffmpeg"
                                           (state_in (says Ffmpeg "   ") 1 HIGH))
         = [Select Ffmpeg true; Readline Ffmpeg])
  /\ result_of (monitor_process_output (snd (pipeline 100 101)) "ffmpeg"
                                       (state_in garbled 1 HIGH))
     = Raise (mkExn UnicodeDecodeError "'utf-8' codec can't decode byte 0xff").
Proof.
  destruct monitor_ignores_silence as (_ & Hnothing & Hblank & Hraise).
  split; [|split].
  - apply (Hnothing (fst (pipeline 100 101)) "libcamera" (state_in calm 1 HIGH));
      reflexivity.
  - apply (Hblank (snd (pipeline 100 101)) "ffmpeg"
                  (state_in (says Ffmpeg "   ") 1 HIGH) "   "); reflexivity.
  - apply (Hraise (snd (pipeline 100 101)) "ffmpeg" (state_in garbled 1 HIGH));
      reflexivity.
Defined.

(* ================================================================== *)
(** * Further properties of [wait_for_internet] *)

Definition is_Connect (e : Event) : bool :=
  match e with Connect _ => true | _ => false end.

Definition is_sleep1 (e : Event) : bool :=
  match e with Sleep seconds => seconds =? 1 | _ => false end.

Definition no_probe_no_sleep (e : Event) : bool :=
  negb (is_Connect e) && negb (is_sleep1 e).

Lemma wait_for_internet_exit_no_probe :
  respects (keeps (fun _ => tt) no_probe_no_sleep) wait_for_internet_exit.
Proof. respects_program. Qed.

Lemma count_if_none (p ok : Event -> bool) (ev : list Event) :
  (forall e, ok e = true -> p e = false) ->
  forallb ok ev = true -> count_if p ev = 0%nat.
Proof.
  intros Hok. unfold count_if. induction ev as [|e ev IH]; [reflexivity|].
  cbn. intro H. apply andb_true_iff in H. destruct H as [He Hev].
  rewrite (Hok e He). now apply IH.
Qed.

Arguments count_if : simpl never.
Arguments posts : simpl never.

Lemma wait_for_internet_offline (fuel : nat) (s : State) :
  shd (net (env s)) = false ->
  wait_for_internet (S fuel) s
  = match wait_for_internet fuel (with_status 0 (probed s)) with
    | (r, s1, ev1) =>
        (r, s1,
         Connect false :: Log "Waiting for internet connection..."
         :: Sleep 1 :: ev1)
    end.
Proof.
  intro Hnet. cbn [wait_for_internet]. unfold bind at 1.
  rewrite wait_for_internet_loop_exact, Hnet.
  now destruct (wait_for_internet fuel (with_status 0 (probed s))) as [[r s1] ev1].
Qed.

Lemma wait_for_internet_online (fuel : nat) (s : State) :
  shd (net (env s)) = true ->
  wait_for_internet (S fuel) s
  = match wait_for_internet_exit (probed s) with
    | (r, s1, ev1) =>
        (match r with Ret _ => Ret (Some tt) | Raise e => Raise e end,
         s1, Connect true :: ev1)
    end.
Proof.
  intro Hnet. cbn [wait_for_internet]. unfold bind.
  rewrite wait_for_internet_loop_exact, Hnet.
  destruct (wait_for_internet_exit (probed s)) as [[[[]|e] s1] ev1]; cbn;
    now rewrite ?List.app_nil_r.
Qed.

(** X3. [wait_for_internet] as a whole, when the first successful probe is
    probe number [k] (counting from 0): it returns after exactly [k + 1]
    probes and [k] one-second sleeps, and it has called the endpoint once
    if some probe failed or the flag was unset on entry, not at all
    otherwise. *)
Theorem wait_for_internet_counts (k : nat) :
  forall s,
    net (env s) k = true ->
    (forall j, (j < k)%nat -> net (env s) j = false) ->
    let o := wait_for_internet (S k) s in
    count_if is_Connect (events_of o) = S k
    /\ count_if is_sleep1 (events_of o) = k
    /\ posts (events_of o)
       = (if (0 <? k)%nat || (status s =? 0) then 1%nat else 0%nat)
    /\ result_of o <> Ret None.
Proof.
  induction k as [|k IH]; intros s Hup Hdown o; subst o.
  - rewrite wait_for_internet_online by exact Hup.
    destruct (wait_for_internet_exit (probed s)) as [[r s1] ev1] eqn:Hexit.
    destruct (respects_elim wait_for_internet_exit_no_probe Hexit) as [_ Hq].
    destruct (@wait_for_internet_exit_notify _ _ _ _ Hexit) as [Hp _].
    assert (Hc : count_if is_Connect ev1 = 0%nat).
    { apply (count_if_none is_Connect no_probe_no_sleep); [|exact Hq].
      intros e He. unfold no_probe_no_sleep in He.
      apply andb_true_iff in He. now apply negb_true_iff, He. }
    assert (Hz : count_if is_sleep1 ev1 = 0%nat).
    { apply (count_if_none is_sleep1 no_probe_no_sleep); [|exact Hq].
      intros e He. unfold no_probe_no_sleep in He.
      apply andb_true_iff in He. now apply negb_true_iff, He. }
    change (status (probed s)) with (status s) in Hp.
    unfold events_of, result_of. cbn [fst snd].
    rewrite !count_if_cons, posts_cons, Hc, Hz, Hp. cbn.
    repeat split. now destruct r.
  - assert (Hrec := IH (with_status 0 (probed s)) Hup
                       (fun j Hj => Hdown (S j) ltac:(lia))).
    cbn zeta in Hrec.
    rewrite wait_for_internet_offline by (apply (Hdown O); lia).
    destruct (wait_for_internet (S k) (with_status 0 (probed s)))
      as [[r s1] ev1].
    unfold events_of, result_of in *. cbn [fst snd] in *.
    destruct Hrec as (Hc & Hz & Hp & Hr).
    change (status (with_status 0 (probed s))) with 0 in Hp.
    rewrite orb_true_r in Hp.
    rewrite !count_if_cons, !posts_cons, Hc, Hz, Hp. cbn.
    repeat split. exact Hr.
Qed.

Lemma wait_for_internet_counts_witness :
  count_if is_Connect
    (events_of (wait_for_internet 3
       (state_in (with_net (starting [false; false] true) calm) 1 LOW))) = 3%nat
  /\ count_if is_sleep1
       (events_of (wait_for_internet 3
          (state_in (with_net (starting [false; false] true) calm) 1 LOW))) = 2%nat
  /\ posts
       (events_of (wait_for_internet 3
          (state_in (with_net (starting [false; false] true) calm) 1 LOW))) = 1%nat
  /\ result_of (wait_for_internet 3
       (state_in (with_net (starting [false; false] true) calm) 1 LOW))
     <> Ret None.
Proof.
  apply (@wait_for_internet_counts 2
           (state_in (with_net (starting [false; false] true) calm) 1 LOW)).
  - reflexivity.
  - intros j Hj. destruct j as [|[|j]]; [reflexivity | reflexivity | lia].
Defined.

(* ================================================================== *)
(** * Further properties of [start_camera_feed] and [start_streaming] *)

(** X4. One call of [start_camera_feed] calls the endpoint exactly once.
    It returns the response text when the call succeeds and the text
    "Error: ..." when the call raises a [RequestException], which never
    escapes; the flag becomes 1 in the first case and is left as it was in
    every other; the pins are never touched. *)
Theorem start_camera_feed_outcomes (s : State) :
  posts (events_of (start_camera_feed s)) = 1%nat
  /\ result_of (start_camera_feed s)
     = match shd (http (env s)) with
       | inl text => Ret text
       | inr e => if is_class RequestException e
                  then Ret ("Error: " ++ exn_str e) else Raise e
       end
  /\ status (state_of (start_camera_feed s))
     = match shd (http (env s)) with inl _ => 1 | inr _ => status s end
  /\ gpio (state_of (start_camera_feed s)) = gpio s.
Proof.
  rewrite start_camera_feed_exact.
  destruct (shd (http (env s))) as [text|e]; repeat split.
Qed.

Definition is_Run (e : Event) : bool :=
  match e with Run _ => true | _ => false end.

Definition is_Spawn (e : Event) : bool :=
  match e with Spawn _ => true | _ => false end.

Definition is_CloseStdout (e : Event) : bool :=
  match e with CloseStdout _ => true | _ => false end.

(** The capture process was started and was alive after the settle
    delay. *)
Definition capture_alive (w : World) : bool :=
  match shd (spawn w), shd (exited w Libcamera) with
  | inl _, None => true
  | _, _ => false
  end.

(** X5. Every call of the launcher runs the teardown first and then starts
    libcamera-vid; nothing is killed after that, so a pipeline that came up
    only half is left for the next teardown.  ffmpeg is started exactly
    when libcamera-vid started and was alive after the settle delay, the
    capture process's stdout is closed by the supervisor exactly when the
    pair is handed back, and neither the flag nor any pin is touched. *)
Theorem start_streaming_order (s : State) :
  (exists rest,
      events_of (start_streaming s)
      = (teardown_log (shd (pkill (env s))) (shd (stl (pkill (env s))))
         ++ Log "Starting libcamera process..." :: Spawn libcamera_command
         :: rest)%list
      /\ existsb is_Run rest = false
      /\ existsb spawns_ffmpeg rest = capture_alive (env s)
      /\ count_if is_Spawn rest = (if capture_alive (env s) then 1%nat else 0%nat)
      /\ existsb is_CloseStdout rest = succeeded (launched (env s)))
  /\ status (state_of (start_streaming s)) = status s
  /\ gpio (state_of (start_streaming s)) = gpio s.
Proof.
  split.
  - rewrite start_streaming_events. unfold start_streaming_log, capture_alive,
      launched.
    eexists. split; [reflexivity|].
    destruct (shd (spawn (env s))) as [n|e1]; cbn; [|now repeat split].
    destruct (shd (exited (env s) Libcamera)) as [code|]; cbn;
      [now repeat split|].
    destruct (shd (stl (spawn (env s)))) as [m|e3]; now repeat split.
  - destruct (start_streaming s) as [[r s1] ev] eqn:E.
    destruct (respects_elim start_streaming_keeps_status E) as [Hs _].
    destruct (respects_elim start_streaming_keeps_gpio E) as [Hg _].
    now split.
Qed.

(* ================================================================== *)
(** * Properties kept along the whole run *)

(** A property of the state that a block keeps true. *)
Definition holds (P : State -> Prop) : State -> State -> list Event -> Prop :=
  fun s s' _ => P s -> P s'.

Lemma holds_refl (P : State -> Prop) s : holds P s s [].
Proof. now intro H. Qed.

Lemma holds_trans (P : State -> Prop) s1 s2 s3 ev1 ev2 :
  holds P s1 s2 ev1 -> holds P s2 s3 ev2 -> holds P s1 s3 (ev1 ++ ev2)%list.
Proof. unfold holds. auto. Qed.

(** Walks through a block for such a property; [side] proves that a state
    update keeps it. *)
Ltac holds_side :=
  solve [ intros; apply holds_refl
        | intros; eapply holds_trans; eassumption ].

Ltac holds_step side :=
  match goal with
  | |- respects _ (bind _ _) => apply respects_bind; [holds_side .. | | intro]
  | |- respects _ (ret _) => apply respects_ret; holds_side
  | |- respects _ (raise _) => apply respects_raise; holds_side
  | |- respects _ (get _) => apply respects_get; holds_side
  | |- respects _ (try_except _ _) =>
      apply respects_try_except; [holds_side .. | | ]
  | |- respects_handler _ (except _ _) => apply respects_except; intro
  | |- respects_handler _ (except_Exception _) =>
      apply respects_except_Exception; intro
  | |- respects_handler _ (or_except _ _) => apply respects_or_except
  | |- respects _ (emit _) => apply respects_emit; intros ? H; exact H
  | |- respects _ (modify _) => apply respects_modify; intro; side
  | |- respects _ (match ?x with _ => _ end) => destruct x
  | |- respects _ (if ?x then _ else _) => destruct x
  end.

Ltac holds_program side :=
  repeat (progress autounfold with program teardown);
  repeat holds_step side.

(** A world in which nothing raises but what the program handles: the
    endpoint fails with [RequestException] only, and what the processes
    write can always be read. *)
Definition benign (w : World) : Prop :=
  (forall k, match http w k with
             | inr e => is_class RequestException e = true
             | inl _ => True
             end)
  /\ (forall p k, match pending w p k with
                  | Some (inr _) => False
                  | _ => True
                  end)
  /\ (forall p k, match remaining w p k with
                  | inr _ => False
                  | inl _ => True
                  end).

Definition in_benign (s : State) : Prop := benign (env s).

Ltac benign_side :=
  let H1 := fresh in let H2 := fresh in let H3 := fresh in
  intros (H1 & H2 & H3); split; [|split]; intros; cbn;
  unfold advance, stl; try destruct (Proc_eqb _ _);
  first [ apply H1 | apply H2 | apply H3 ].

Lemma retry_loop_benign (retries : list Z) :
  forall processes, respects (holds in_benign) (retry_loop retries processes).
Proof.
  induction retries as [|retry retries IH]; intro processes; cbn [retry_loop].
  - holds_step benign_side.
  - apply respects_bind; [holds_side .. | holds_program benign_side |].
    intros [handle|]; [holds_step benign_side|].
    holds_program benign_side. apply IH.
Qed.

Lemma body_benign (c : Config) : respects (holds in_benign) (body_at c).
Proof.
  unfold body_at. destruct (loc c).
  - holds_program benign_side.
  - repeat (progress autounfold with program teardown);
      repeat first [ apply retry_loop_benign | holds_step benign_side ].
  - holds_program benign_side.
  - holds_step benign_side.
Qed.

Lemma step_benign (c : Config) :
  benign (env (st c)) -> benign (env (st (step c))).
Proof.
  intro H. pose proof (@body_benign c (st c)) as Hb. unfold step.
  destruct (body_at c (st c)) as [[[l|e] s] ev]; exact (Hb H).
Qed.

Definition exited_now (c : Config) : bool :=
  match loc c with Exited => true | _ => false end.

Lemma waiting_no_exit (c : Config) :
  loc c = Waiting -> benign (env (st c)) -> exited_now (step c) = false.
Proof.
  intros Hloc (Hhttp & _ & _). unfold exited_now.
  destruct (@waiting_step c Hloc) as [_ ->|e s1 ev1 _ Hexit _ _ _ _|
                                      s1 ev1 s2 ev2 _ _ _ ->|
                                      s1 ev1 s2 ev2 n m _ _ _ ->];
    try reflexivity.
  exfalso. rewrite wait_for_internet_exit_exact in Hexit.
  specialize (Hhttp O).
  change (http (env (st c)) O) with (shd (http (env (probed (st c))))) in Hhttp.
  destruct (status (probed (st c)) =? 0); [|discriminate].
  destruct (shd (http (env (probed (st c))))) as [text|e']; [discriminate|].
  rewrite Hhttp in Hexit. discriminate.
Qed.

Lemma streaming_no_exit (c : Config) (n m t0 : Z) :
  loc c = Streaming (fst (pipeline n m)) (snd (pipeline n m)) t0 ->
  benign (env (st c)) -> exited_now (step c) = false.
Proof.
  intros Hloc (_ & Hpending & Hremaining). unfold exited_now.
  pose proof (Hremaining Libcamera O) as Hr1.
  pose proof (Hremaining Ffmpeg O) as Hr2.
  pose proof (Hpending Libcamera O) as Hp1.
  pose proof (Hpending Ffmpeg O) as Hp2.
  change (remaining (env (st c)) Libcamera O)
    with (shd (remaining (env (st c)) Libcamera)) in Hr1.
  change (remaining (env (st c)) Ffmpeg O)
    with (shd (remaining (env (st c)) Ffmpeg)) in Hr2.
  change (pending (env (st c)) Libcamera O)
    with (shd (pending (env (st c)) Libcamera)) in Hp1.
  change (pending (env (st c)) Ffmpeg O)
    with (shd (pending (env (st c)) Ffmpeg)) in Hp2.
  clear Hpending Hremaining.
  streaming_step_cases c Hloc; try contradiction; reflexivity.
Qed.

Definition supervising (c : Config) : Prop :=
  consistent c /\ benign (env (st c)) /\ exited_now c = false.

Lemma step_supervising (c : Config) : supervising c -> supervising (step c).
Proof.
  intros (Hc & Hb & He). split; [now apply step_consistent|].
  split; [now apply step_benign|].
  destruct Hc as [_ Hwf]. unfold well_formed, exited_now in *.
  destruct (loc c) as [| |l f t0|] eqn:Hloc.
  - destruct (@boot_step c Hloc) as (Hl & _). unfold exited_now. now rewrite Hl.
  - now apply waiting_no_exit.
  - destruct Hwf as (n & m & -> & ->). now apply (@streaming_no_exit c n m t0).
  - discriminate.
Qed.

Lemma run_supervising (n : nat) :
  forall c, supervising c -> supervising (run n c).
Proof.
  induction n as [|n IH]; intros c H; [exact H|].
  cbn [run]. apply IH. now apply step_supervising.
Qed.

(** X6. The supervisor does not stop on its own: in a world where the
    endpoint fails with [RequestException] only and the output of the two
    processes can always be read, whatever the network, [pkill], [Popen]
    and the processes do, the program has not ended after any number of
    steps. *)
Theorem supervisor_never_stops (w : World) (n : nat) :
  benign w -> exited_now (run n (init w)) = false.
Proof.
  intro Hb. apply (@run_supervising n (init w)).
  split; [apply init_consistent|]. now split.
Qed.

Lemma supervisor_never_stops_witness :
  exited_now (run 25 (init unlaunchable)) = false.
Proof.
  apply (@supervisor_never_stops unlaunchable 25).
  split; [|split]; intros; exact I.
Defined.

(** Output events on pin 18 only. *)
Definition only_pin18 (e : Event) : bool :=
  match e with GpioOutput pin _ => pin =? 18 | _ => true end.

Definition pin23_low (s : State) : Prop := gpio s 23 = LOW.

Ltac pin23_side :=
  let H := fresh in intro H; unfold pin23_low in *; cbn; first [exact H | reflexivity].

Lemma retry_loop_only_pin18 (retries : list Z) :
  forall processes,
    respects (keeps (fun _ => tt) only_pin18) (retry_loop retries processes).
Proof.
  induction retries as [|retry retries IH]; intro processes; cbn [retry_loop].
  - respects_walk.
  - apply respects_bind; [respects_side .. | respects_program |].
    intros [handle|]; [respects_walk|]. autounfold with program.
    respects_walk. apply IH.
Qed.

Lemma body_only_pin18 (c : Config) :
  respects (keeps (fun _ => tt) only_pin18) (body_at c).
Proof.
  unfold body_at. destruct (loc c).
  - respects_program.
  - repeat (progress autounfold with program teardown);
      repeat first [ apply retry_loop_only_pin18 | respects_step ].
  - respects_program.
  - respects_walk.
Qed.

Lemma retry_loop_pin23 (retries : list Z) :
  forall processes, respects (holds pin23_low) (retry_loop retries processes).
Proof.
  induction retries as [|retry retries IH]; intro processes; cbn [retry_loop].
  - holds_step pin23_side.
  - apply respects_bind; [holds_side .. | holds_program pin23_side |].
    intros [handle|]; [holds_step pin23_side|].
    holds_program pin23_side. apply IH.
Qed.

Lemma body_pin23 (c : Config) : respects (holds pin23_low) (body_at c).
Proof.
  unfold body_at. destruct (loc c).
  - holds_program pin23_side.
  - repeat (progress autounfold with program teardown);
      repeat first [ apply retry_loop_pin23 | holds_step pin23_side ].
  - holds_program pin23_side.
  - holds_step pin23_side.
Qed.

Lemma run_only_pin18 (n : nat) :
  forall c,
    forallb only_pin18 (trace c) = true -> gpio (st c) 23 = LOW ->
    forallb only_pin18 (trace (run n c)) = true /\ gpio (st (run n c)) 23 = LOW.
Proof.
  induction n as [|n IH]; intros c Ht Hg; [now split|].
  cbn [run]. apply IH.
  - rewrite trace_step, forallb_app, Ht. unfold step_events.
    apply (body_only_pin18 c (st c)).
  - pose proof (@body_pin23 c (st c)) as Hb. unfold step.
    destruct (body_at c (st c)) as [[[l|e] s] ev]; exact (Hb Hg).
Qed.

(** X7. The second output line, pin 23, is set up and never used: the
    program only ever writes to pin 18, and pin 23 is low at every loop
    head of the run. *)
Theorem pin23_never_driven (w : World) (n : nat) :
  forallb only_pin18 (trace (run n (init w))) = true
  /\ gpio (st (run n (init w))) 23 = LOW.
Proof. now apply run_only_pin18. Qed.

(** X8. The flag [status] is only ever 0 or 1, and it is 1 only after the
    endpoint has been called. *)
Theorem status_set_only_after_post (w : World) (n : nat) :
  status (st (run n (init w))) = 0
  \/ (status (st (run n (init w))) = 1
      /\ (1 <= posts (trace (run n (init w))))%nat).
Proof.
  assert (H : forall k c,
             (status (st c) = 0 \/ (status (st c) = 1 /\ (1 <= posts (trace c))%nat)) ->
             status (st (run k c)) = 0
             \/ (status (st (run k c)) = 1 /\ (1 <= posts (trace (run k c)))%nat)).
  { induction k as [|k IH]; intros c Hc; [exact Hc|].
    cbn [run]. apply IH.
    destruct (step_notifications c) as [Hp Hs].
    rewrite Hs, trace_step, posts_app, Hp. unfold next_status, notifies.
    destruct (loc c);
      try (destruct Hc as [Hc|[Hc Hc']]; [now left | right; split; [exact Hc | lia]]).
    destruct (shd (net (env (st c)))); [|now left]. cbn [andb].
    destruct (status (st c) =? 0) eqn:Hz.
    - destruct (shd (http (env (st c)))); [right; split; [reflexivity|lia] | now left].
    - destruct Hc as [Hc|[Hc Hc']]; [now left | right; split; [exact Hc | lia]]. }
  apply H. now left.
Qed.

(** X9. How a round of the streaming loop ends.  A round that finds
    nothing wrong ends with the three-second sleep.  A round that leaves
    the loop first drives the indicator low, then runs the teardown, then
    logs the restart and sleeps three seconds.  A round in which reading a
    process's output raises logs the exception, runs the teardown and
    releases the pins, and the program is over; the indicator is not
    driven low before that teardown. *)
Theorem streaming_round_ends (c : Config) (n m t0 : Z) :
  loc c = Streaming (fst (pipeline n m)) (snd (pipeline n m)) t0 ->
  (loc (step c) = loc c
   /\ exists before, step_events c = (before ++ [Sleep 3])%list)
  \/ (loc (step c) = Waiting
      /\ exists before,
          step_events c
          = (before ++ GpioOutput 18 LOW
             :: teardown_log (shd (pkill (env (st c))))
                             (shd (stl (pkill (env (st c)))))
             ++ restart_log)%list)
  \/ (loc (step c) = Exited
      /\ exists e before,
          step_events c
          = (before ++ Log ("Exited with: " ++ exn_str e)
             :: teardown_log (shd (pkill (env (st c))))
                             (shd (stl (pkill (env (st c)))))
             ++ [GpioCleanup; GpioCleanup; Log "Process exited"])%list
          /\ existsb (fun e => match e with GpioOutput _ _ => true | _ => false end)
                     before = false).
Proof.
  intro Hloc. unfold step_events, restart_log.
  streaming_step_cases c Hloc;
    rewrite ?Hloc;
    repeat (progress (rewrite ?List.app_nil_r, <- ?List.app_assoc; cbn [app]));
    first [ left; split; [reflexivity|]; eexists; find_suffix
          | right; left; split; [reflexivity|]; eexists; find_suffix
          | right; right; split; [reflexivity|]; do 2 eexists;
            split; [find_suffix|];
            rewrite ?existsb_app; cbn;
            rewrite ?existsb_app; cbn;
            repeat match goal with
                   | |- context [monitor_log ?a ?b] =>
                       let H := fresh in
                       assert (H : existsb (fun e => match e with
                                                     | GpioOutput _ _ => true
                                                     | _ => false
                                                     end) (monitor_log a b) = false)
                         by (unfold monitor_log; cbn zeta;
                             destruct (truthy (strip b)); [|reflexivity];
                             destruct (is_in "INFO" (strip b)); [reflexivity|];
                             destruct (any_in error_terms (lower (strip b)));
                             reflexivity);
                       rewrite H; clear H
                   end;
            reflexivity ].
Qed.

Lemma streaming_round_ends_witness :
  (loc (step (streaming_in calm)) = loc (streaming_in calm)
   /\ exists before, step_events (streaming_in calm) = (before ++ [Sleep 3])%list)
  \/ (loc (step (streaming_in calm)) = Waiting
      /\ exists before,
          step_events (streaming_in calm)
          = (before ++ GpioOutput 18 LOW
             :: teardown_log (shd (pkill (env (st (streaming_in calm)))))
                             (shd (stl (pkill (env (st (streaming_in calm))))))
             ++ restart_log)%list)
  \/ (loc (step (streaming_in calm)) = Exited
      /\ exists e before,
          step_events (streaming_in calm)
          = (before ++ Log ("Exited with: " ++ exn_str e)
             :: teardown_log (shd (pkill (env (st (streaming_in calm)))))
                             (shd (stl (pkill (env (st (streaming_in calm))))))
             ++ [GpioCleanup; GpioCleanup; Log "Process exited"])%list
          /\ existsb (fun e => match e with GpioOutput _ _ => true | _ => false end)
                     before = false).
Proof.
  apply (@streaming_round_ends (streaming_in calm) 100 101 0). reflexivity.
Defined.

(* ================================================================== *)
(** * Pacing of the launcher over the whole run *)

(** Whether the launcher has been called since the last three-second
    sleep, after the events [ev]. *)
Fixpoint armed_after (armed : bool) (ev : list Event) : bool :=
  match ev with
  | [] => armed
  | e :: ev' =>
      if is_launch e then armed_after true ev'
      else if is_sleep3 e then armed_after false ev'
      else armed_after armed ev'
  end.

Lemma paced_app (ev1 ev2 : list Event) :
  forall armed,
    paced armed (ev1 ++ ev2)%list
    = paced armed ev1 && paced (armed_after armed ev1) ev2.
Proof.
  induction ev1 as [|e ev1 IH]; intro armed; [reflexivity|]. cbn.
  destruct (is_launch e); [now rewrite IH, andb_assoc|].
  destruct (is_sleep3 e); apply IH.
Qed.

Lemma armed_after_app (ev1 ev2 : list Event) :
  forall armed,
    armed_after armed (ev1 ++ ev2)%list
    = armed_after (armed_after armed ev1) ev2.
Proof.
  induction ev1 as [|e ev1 IH]; intro armed; [reflexivity|]. cbn.
  destruct (is_launch e); [apply IH|]. destruct (is_sleep3 e); apply IH.
Qed.

Lemma no_launch_disarmed (ev : list Event) :
  forallb no_launch ev = true -> armed_after false ev = false.
Proof.
  unfold no_launch. induction ev as [|e ev IH]; [reflexivity|]. cbn.
  intro H. apply andb_true_iff in H. destruct H as [He Hev].
  apply negb_true_iff in He. rewrite He. destruct (is_sleep3 e); now apply IH.
Qed.

Lemma armed_after_restart (armed : bool) (before : list Event) :
  armed_after armed (before ++ restart_log)%list = false.
Proof. now rewrite armed_after_app. Qed.

(** A step from the streaming loop, whatever pair is held: the loop goes
    on, or it is left through the restart, or the program is over. *)
Lemma streaming_step_shape (c : Config) l f t0 :
  loc c = Streaming l f t0 ->
  loc (step c) = loc c
  \/ (loc (step c) = Waiting
      /\ exists before, step_events c = (before ++ restart_log)%list)
  \/ loc (step c) = Exited.
Proof.
  intro Hloc. unfold step_events, step, body_at. rewrite Hloc.
  unfold main_try, stream, try_except, except_Exception, bind.
  destruct (poll_iteration l f t0 (count c) (st c)) as [[[[]|e] s1] ev1]; cbn.
  - now left.
  - right. left. split; [reflexivity|]. now exists ev1.
  - rewrite shutdown_exact. cbn. now right; right.
Qed.

(** The launcher has kept its pace so far, and when it has been called
    since the last three-second sleep the supervisor is streaming or the
    program is over. *)
Definition well_paced (c : Config) : Prop :=
  paced false (trace c) = true
  /\ (armed_after false (trace c) = true ->
      streaming c = true \/ exited_now c = true).

Lemma step_well_paced (c : Config) : well_paced c -> well_paced (step c).
Proof.
  intros [Hp Ha]. unfold well_paced.
  rewrite trace_step, paced_app, armed_after_app, Hp. cbn [andb].
  destruct (loc c) as [| |l f t0|] eqn:Hloc.
  - assert (H : forallb no_launch (step_events c) = true).
    { unfold step_events, body_at. rewrite Hloc. apply (boot_no_launch (st c)). }
    assert (Hd : armed_after false (trace c) = false).
    { destruct (armed_after false (trace c)); [|reflexivity].
      unfold streaming, exited_now in Ha. rewrite Hloc in Ha.
      now destruct (Ha eq_refl). }
    rewrite Hd, (proj2 (no_launch_counts _ H)), (no_launch_disarmed _ H).
    split; [reflexivity | discriminate].
  - assert (Hd : armed_after false (trace c) = false).
    { destruct (armed_after false (trace c)); [|reflexivity].
      unfold streaming, exited_now in Ha. rewrite Hloc in Ha.
      now destruct (Ha eq_refl). }
    rewrite Hd.
    destruct (@waiting_step c Hloc) as [_ Hstep|e s1 ev1 _ Hexit _ _ _ Hev|
                                        s1 ev1 s2 ev2 _ Hexit Hloop Hstep|
                                        s1 ev1 s2 ev2 n m _ Hexit Hloop Hstep].
    + rewrite (@step_events_eq _ _ _ _ _ Hstep). split; [reflexivity|discriminate].
    + destruct (respects_elim wait_for_internet_exit_neutral Hexit) as [_ Hn].
      assert (H : forallb no_launch (step_events c) = true).
      { apply neutral_no_launch. rewrite Hev. cbn [forallb].
        now rewrite forallb_app, Hn, shutdown_log_neutral. }
      rewrite (proj2 (no_launch_counts _ H)), (no_launch_disarmed _ H).
      split; [reflexivity | discriminate].
    + destruct (respects_elim wait_for_internet_exit_neutral Hexit) as [_ Hn].
      destruct (neutral_counts _ Hn) as (_ & _ & _ & Hp1).
      destruct (@retry_loop_events _ _ _ _ _ Hloop) as (_ & _ & _ & _ & _ & Hp2).
      rewrite (@step_events_eq _ _ _ _ _ Hstep).
      split.
      * cbn [paced is_launch is_sleep3]. rewrite Hp1, Hp2. reflexivity.
      * cbn [armed_after is_launch is_sleep3]. rewrite !armed_after_app. cbn.
        discriminate.
    + destruct (respects_elim wait_for_internet_exit_neutral Hexit) as [_ Hn].
      destruct (neutral_counts _ Hn) as (_ & _ & _ & Hp1).
      destruct (@retry_loop_events _ _ _ _ _ Hloop) as (_ & _ & _ & _ & _ & Hp2).
      rewrite (@step_events_eq _ _ _ _ _ Hstep), Hstep.
      split.
      * cbn [paced is_launch is_sleep3]. rewrite Hp1, Hp2. reflexivity.
      * intros _. now left.
  - assert (H : forallb no_launch (step_events c) = true).
    { unfold step_events, body_at. rewrite Hloc.
      apply (stream_no_launch l f t0 (count c) (st c)). }
    rewrite (proj2 (no_launch_counts _ H)). split; [reflexivity|].
    destruct (@streaming_step_shape c l f t0 Hloc)
      as [Hl|[(Hl & before & Hev)|Hl]]; unfold streaming, exited_now; rewrite Hl.
    + rewrite Hloc. now left.
    + rewrite Hev, armed_after_restart. discriminate.
    + now right.
  - rewrite (@exited_step c Hloc). unfold step_events, body_at. rewrite Hloc.
    cbn. split; [reflexivity|]. intros _. now right.
Qed.

(** X10. Over the whole run, across cycles and restarts, libcamera-vid is
    never started twice without a three-second sleep in between. *)
Theorem launcher_paced_throughout (w : World) (n : nat) :
  paced false (trace (run n (init w))) = true.
Proof.
  assert (H : forall k c, well_paced c -> well_paced (run k c)).
  { induction k as [|k IH]; intros c Hc; [exact Hc|].
    cbn [run]. apply IH. now apply step_well_paced. }
  apply (H n (init w)). split; [reflexivity | discriminate].
Qed.

(* ================================================================== *)
(** * The loop counter *)

(** The line that opens every round of the streaming loop. *)
Definition is_uptime (e : Event) : bool :=
  match e with
  | Log message => prefix "Stream uptime: " message
  | _ => false
  end.

Definition no_uptime (e : Event) : bool := negb (is_uptime e).

Lemma retry_loop_no_uptime (retries : list Z) :
  forall processes,
    respects (keeps (fun _ => tt) no_uptime) (retry_loop retries processes).
Proof.
  induction retries as [|retry retries IH]; intro processes; cbn [retry_loop].
  - respects_walk.
  - apply respects_bind; [respects_side .. | respects_program |].
    intros [handle|]; [respects_walk|]. autounfold with program.
    respects_walk. apply IH.
Qed.

Lemma boot_no_uptime :
  respects (keeps (fun _ => tt) no_uptime) (module_level ;; main_try boot).
Proof. respects_program. Qed.

Lemma connect_and_launch_no_uptime :
  respects (keeps (fun _ => tt) no_uptime) (main_try connect_and_launch).
Proof.
  repeat (progress autounfold with program teardown);
    repeat first [ apply retry_loop_no_uptime | respects_step ].
Qed.

Lemma no_uptime_count (ev : list Event) :
  forallb no_uptime ev = true -> count_if is_uptime ev = 0%nat.
Proof.
  apply count_if_none. intros e He. now apply negb_true_iff.
Qed.

Lemma uptime_teardown_log (first second : Z + Exn) :
  count_if is_uptime (teardown_log first second) = 0%nat.
Proof.
  unfold teardown_log, teardown_message.
  destruct first as [|e1]; [destruct second as [|e2]|]; try reflexivity;
    match goal with |- context [is_class ?c ?e] => destruct (is_class c e) end;
    reflexivity.
Qed.

Lemma uptime_monitor_log_libcamera (raw : string) :
  count_if is_uptime (monitor_log "libcamera" raw) = 0%nat.
Proof.
  unfold monitor_log. cbn zeta. destruct (truthy (strip raw)); [|reflexivity].
  cbn. destruct (is_in "INFO" (strip raw)); [reflexivity|].
  destruct (any_in error_terms (lower (strip raw))); reflexivity.
Qed.

Lemma uptime_monitor_log_ffmpeg (raw : string) :
  count_if is_uptime (monitor_log "ffmpeg" raw) = 0%nat.
Proof.
  unfold monitor_log. cbn zeta. destruct (truthy (strip raw)); [|reflexivity].
  cbn. destruct (any_in error_terms (lower (strip raw))); reflexivity.
Qed.

Lemma prefix_empty (s : string) : prefix "" s = true.
Proof. now destruct s. Qed.

(** Every step from the streaming loop logs the uptime line once. *)
Lemma streaming_step_uptime (c : Config) (n m t0 : Z) :
  loc c = Streaming (fst (pipeline n m)) (snd (pipeline n m)) t0 ->
  count_if is_uptime (step_events c) = 1%nat.
Proof.
  intro Hloc. unfold step_events.
  streaming_step_cases c Hloc;
    repeat (rewrite ?count_if_cons, ?count_if_app, ?uptime_teardown_log,
             ?uptime_monitor_log_libcamera, ?uptime_monitor_log_ffmpeg);
    cbn; rewrite prefix_empty; reflexivity.
Qed.

Definition counted (c : Config) : Prop :=
  count c = Z.of_nat (count_if is_uptime (trace c)) /\ well_formed c.

Lemma step_counted (c : Config) : consistent c -> counted c -> counted (step c).
Proof.
  intros Hcons [Hc Hwf]. split; [|now apply step_consistent].
  rewrite trace_step, count_if_app.
  assert (Hcount : count (step c) = next_count c).
  { unfold step. now destruct (body_at c (st c)) as [[[l|e] s] ev]. }
  rewrite Hcount. unfold next_count, well_formed in *.
  destruct (loc c) as [| |l f t0|] eqn:Hloc; cbv beta iota.
  - rewrite (no_uptime_count (step_events c)); [lia|].
    unfold step_events, body_at. rewrite Hloc. apply (boot_no_uptime (st c)).
  - rewrite (no_uptime_count (step_events c)); [lia|].
    unfold step_events, body_at. rewrite Hloc.
    apply (connect_and_launch_no_uptime (st c)).
  - destruct Hwf as (n & m & -> & ->).
    rewrite (@streaming_step_uptime c n m t0 Hloc), Nat2Z.inj_add, <- Hc.
    reflexivity.
  - unfold step_events, body_at. rewrite Hloc. cbn.
    change (count_if is_uptime []) with 0%nat. lia.
Qed.

(** X11. The loop counter is never reset: at every loop head it equals the
    number of rounds of the streaming loop begun since the program
    started, over all restarts, each round having logged its uptime line
    exactly once. *)
Theorem loop_count_is_total_rounds (w : World) (n : nat) :
  count (run n (init w))
  = Z.of_nat (count_if is_uptime (trace (run n (init w)))).
Proof.
  assert (H : forall k c, consistent c -> counted c ->
                          consistent (run k c) /\ counted (run k c)).
  { induction k as [|k IH]; intros c Hc Hn; [now split|].
    cbn [run]. apply IH; [now apply step_consistent | now apply step_counted]. }
  apply (H n (init w)); [apply init_consistent | now split].
Qed.

(* ================================================================== *)
(** * The network gate *)

(** Every call of the launcher comes after a connectivity probe, and the
    latest probe before it succeeded; [up] is the answer of the latest
    probe so far. *)
Fixpoint gated (up : bool) (ev : list Event) : bool :=
  match ev with
  | [] => true
  | Connect ok :: ev' => gated ok ev'
  | e :: ev' => if is_launch e then up && gated up ev' else gated up ev'
  end.

Fixpoint last_probe (up : bool) (ev : list Event) : bool :=
  match ev with
  | [] => up
  | Connect ok :: ev' => last_probe ok ev'
  | _ :: ev' => last_probe up ev'
  end.

Lemma gated_app (ev1 ev2 : list Event) :
  forall up,
    gated up (ev1 ++ ev2)%list = gated up ev1 && gated (last_probe up ev1) ev2.
Proof.
  induction ev1 as [|e ev1 IH]; intro up; [reflexivity|].
  destruct e; cbn [gated last_probe app]; try apply IH;
    destruct (is_launch _); [now rewrite IH, andb_assoc | apply IH].
Qed.

Lemma no_launch_gated (ev : list Event) :
  forallb no_launch ev = true -> forall up, gated up ev = true.
Proof.
  unfold no_launch. induction ev as [|e ev IH]; [reflexivity|]. cbn [forallb].
  intro H. apply andb_true_iff in H. destruct H as [He Hev].
  apply negb_true_iff in He. intro up.
  destruct e; cbn [gated]; try apply (IH Hev); rewrite He; apply (IH Hev).
Qed.

Definition no_Connect (e : Event) : bool := negb (is_Connect e).

Lemma no_Connect_gated (ev : list Event) :
  forallb no_Connect ev = true -> gated true ev = true.
Proof.
  unfold no_Connect. induction ev as [|e ev IH]; [reflexivity|]. cbn [forallb].
  intro H. apply andb_true_iff in H. destruct H as [He Hev].
  destruct e; try discriminate He; cbn [gated];
    destruct (is_launch _); apply (IH Hev).
Qed.

Lemma retry_loop_no_Connect (retries : list Z) :
  forall processes,
    respects (keeps (fun _ => tt) no_Connect) (retry_loop retries processes).
Proof.
  induction retries as [|retry retries IH]; intro processes; cbn [retry_loop].
  - respects_walk.
  - apply respects_bind; [respects_side .. | respects_program |].
    intros [handle|]; [respects_walk|]. autounfold with program.
    respects_walk. apply IH.
Qed.

Lemma wait_for_internet_exit_no_Connect :
  respects (keeps (fun _ => tt) no_Connect) wait_for_internet_exit.
Proof. respects_program. Qed.

Lemma shutdown_log_no_Connect (e : Exn) (s : State) :
  forallb no_Connect (shutdown_log e s) = true.
Proof.
  unfold shutdown_log. cbn [forallb]. rewrite forallb_app.
  destruct (shd (pkill (env s))), (shd (stl (pkill (env s)))); reflexivity.
Qed.

(** Every step is gated, whatever the latest probe before it was. *)
Lemma step_gated (c : Config) : forall up, gated up (step_events c) = true.
Proof.
  destruct (loc c) as [| |l f t0|] eqn:Hloc.
  - apply no_launch_gated. unfold step_events, body_at. rewrite Hloc.
    apply (boot_no_launch (st c)).
  - intro up.
    destruct (@waiting_step c Hloc) as [_ Hstep|e s1 ev1 _ Hexit _ _ _ Hev|
                                        s1 ev1 s2 ev2 _ Hexit Hloop Hstep|
                                        s1 ev1 s2 ev2 n m _ Hexit Hloop Hstep].
    + now rewrite (@step_events_eq _ _ _ _ _ Hstep).
    + destruct (respects_elim wait_for_internet_exit_no_Connect Hexit) as [_ Hn].
      rewrite Hev. cbn [gated]. apply no_Connect_gated.
      now rewrite forallb_app, Hn, shutdown_log_no_Connect.
    + destruct (respects_elim wait_for_internet_exit_no_Connect Hexit) as [_ Hn].
      destruct (respects_elim (retry_loop_no_Connect _ _) Hloop) as [_ Hn2].
      rewrite (@step_events_eq _ _ _ _ _ Hstep). cbn [gated].
      apply no_Connect_gated. now rewrite !forallb_app, Hn, Hn2.
    + destruct (respects_elim wait_for_internet_exit_no_Connect Hexit) as [_ Hn].
      destruct (respects_elim (retry_loop_no_Connect _ _) Hloop) as [_ Hn2].
      rewrite (@step_events_eq _ _ _ _ _ Hstep). cbn [gated].
      apply no_Connect_gated. now rewrite !forallb_app, Hn, Hn2.
  - apply no_launch_gated. unfold step_events, body_at. rewrite Hloc.
    apply (stream_no_launch l f t0 (count c) (st c)).
  - intro up. unfold step_events, body_at. now rewrite Hloc.
Qed.

(** X12. The launcher is gated on the network over the whole run:
    libcamera-vid is never started before a connectivity probe has been
    made, and whenever it is started the latest probe before it
    succeeded. *)
Theorem launcher_gated_on_network (w : World) (n : nat) :
  gated false (trace (run n (init w))) = true.
Proof.
  assert (H : forall k c, gated false (trace c) = true ->
                          gated false (trace (run k c)) = true).
  { induction k as [|k IH]; intros c Hc; [exact Hc|].
    cbn [run]. apply IH. now rewrite trace_step, gated_app, Hc, step_gated. }
  now apply H.
Qed.
